(** * The doctor appointment assistant ([streamlit_app.py])

  A shallow embedding of the three tools ([get_doctors],
  [send_doctor_request], [confirm_patient] with [save_to_json]), of the
  agent runner and of the Streamlit script, followed by the properties of
  the directory, the notification client, the appointment store and the
  chat session.

  Python code runs in a small monad: it reads an environment (what the
  network, the disk and the language model answer), threads a world (the
  file [appointments.json], standard output, the requests sent, the agent
  runs, the session state) and either returns a value or raises. *)

From Stdlib Require Import String List ZArith Lia Bool.
From Stdlib Require Import DecimalString DecimalZ.
Import ListNotations.

Set Warnings "-register-all".

Local Open Scope string_scope.
Local Open Scope Z_scope.

(* ===================================================================== *)
(** * Part I: the model *)
(* ===================================================================== *)

(** ** Python values *)

Module Py.

(** The objects [json.load] can produce and [json.dump] can write, which
    are also the objects the tools build. A [str] is kept as the bytes of
    its UTF-8 encoding, a [float] by its [repr]; a [dict] keeps its items
    in insertion order. *)
Inductive pyobj : Type :=
| PNone
| PBool (b : bool)
| PInt (n : Z)
| PFloat (repr : string)
| PStr (s : string)
| PList (xs : list pyobj)
| PDict (items : list (string * pyobj)).

(** [type(o).__name__], as it appears in an [AttributeError]. *)
Definition type_name (o : pyobj) : string :=
  match o with
  | PNone => "NoneType"
  | PBool _ => "bool"
  | PInt _ => "int"
  | PFloat _ => "float"
  | PStr _ => "str"
  | PList _ => "list"
  | PDict _ => "dict"
  end.

(** [d[k]] on the items of a dict: the first item with key [k]. *)
Fixpoint lookup (k : string) (items : list (string * pyobj)) : option pyobj :=
  match items with
  | [] => None
  | (k', v) :: rest => if String.eqb k k' then Some v else lookup k rest
  end.

(** [o[k]] for an object [o]: defined on dicts only. *)
Definition getitem (k : string) (o : pyobj) : option pyobj :=
  match o with
  | PDict items => lookup k items
  | _ => None
  end.

(** An instance of [Exception]: the class name and [str(e)]. These are
    the exceptions [except Exception] catches. *)
Record exn : Type := Exn { exn_class : string; exn_str : string }.

(** [str(n)] for an [int]. *)
Definition str_int (n : Z) : string := NilZero.string_of_int (Z.to_int n).

(** How a call ends: it returns or it raises. *)
Inductive outcome (A : Type) : Type :=
| Ret (a : A)
| Raise (e : exn).
Arguments Ret {A} a.
Arguments Raise {A} e.

(** [needle in hay] for strings. *)
Definition includes (needle hay : string) : Prop :=
  exists before after, hay = (before ++ needle ++ after)%string.

(** The markers that open every string a tool returns. *)
Definition success_marked (s : string) : bool := String.prefix "✅" s.
Definition failure_marked (s : string) : bool := String.prefix "❌" s.

End Py.
Import Py.

(** ** The world outside the program *)

Module World.

(** *** The file [appointments.json] *)

(** The text of a file, seen through [json.load]: a JSON document, with
    the value it decodes to and the way it is laid out; or a text
    [json.load] rejects, with the message of its [JSONDecodeError]; or,
    among these, the beginning of a JSON document that a failed write cut
    before its end, with the value and the layout of the document that was
    being written. *)
Inductive layout : Type :=
| Indented (width : nat)   (* written by [json.dump(..., indent=width)] *)
| Unformatted.             (* any other layout *)

Inductive file_text : Type :=
| JsonText (lay : layout) (value : pyobj)
| NotJson (why : string)
| PartOf (lay : layout) (value : pyobj) (why : string).

Inductive file_state : Type :=
| Absent
| Present (text : file_text).

(** A file just opened with mode ["w"] is empty. *)
Definition truncated : file_text :=
  NotJson "Expecting value: line 1 column 1 (char 0)".

(** What the program asks of the file system, in order. *)
Inductive fs_op : Type :=
| FsExists
| FsOpenRead
| FsJsonLoad
| FsOpenWrite
| FsJsonDump (value : pyobj) (indent : nat).

(** *** The webhook *)

Record http_request : Type := HttpRequest {
  req_method : string;
  req_url : string;
  req_headers : list (string * string);
  req_json : pyobj
}.

Inductive http_reply : Type :=
| Status (status_code : Z)
| NetError (e : exn).

(** *** The state a session can change *)

Record world : Type := World {
  appointments_json : file_state;          (* the file in the working directory *)
  fs_trace : list fs_op;                   (* file system calls made so far *)
  stdout : list string;                    (* lines given to [print] so far *)
  posts : list http_request;               (* requests sent so far *)
  agent_runs : list string;                (* inputs given to [Runner.run] so far *)
  history : option (list (string * string)); (* [st.session_state.history], if set *)
  screen : list (string * string)          (* chat messages drawn by the current run *)
}.

Definition initial_world : world :=
  World Absent [] [] [] [] None [].

(** *** What the surroundings answer *)

(** The faults the files of the process may raise during one call: the
    file [appointments.json] and the standard output stream. A write that
    fails does so part way: it raises, and leaves the part of the text
    written so far, which [json.load] rejects with the message given. *)
Record disk : Type := Disk {
  open_read_fault : option exn;    (* [open(file)] raises *)
  open_write_fault : option exn;   (* [open(file, "w")] raises, file untouched *)
  write_fault : option (exn * string);
                                   (* writing raises part way: the exception,
                                      and how what is left fails to decode *)
  stdout_fault : option exn        (* [print] raises (a closed or broken
                                      stream, a text it cannot encode) *)
}.

Definition healthy_disk : disk := Disk None None None None.

(** What the language model decides during one run of the agent: a final
    output, a failure of the run (the API is unreachable, the turn limit is
    hit), or a call to one of the three tools of the agent, whose result it
    then sees. The plan is finite, as the runner bounds the number of
    turns. *)
Inductive agent_plan : Type :=
| Final (final_output : string)
| Fails (e : exn)
| CallGetDoctors (k : pyobj -> agent_plan)
| CallSendDoctorRequest (patient_name doctor_name date time : string)
    (k : string -> agent_plan)
| CallConfirmPatient (patient_name doctor_name date time : string)
    (k : string -> agent_plan).

Record env : Type := Env {
  net : http_request -> http_reply;   (* what [requests.post] meets *)
  disk_now : disk;                    (* what the file system calls meet *)
  llm : string -> agent_plan          (* what the model does with an input *)
}.

End World.
Import World.

(** ** Effects *)

Module Eff.

Definition M (A : Type) : Type := env -> world -> outcome A * world.

Definition ret {A} (a : A) : M A := fun _ w => (Ret a, w).

Definition bind {A B} (m : M A) (k : A -> M B) : M B :=
  fun e w =>
    match m e w with
    | (Ret a, w') => k a e w'
    | (Raise x, w') => (Raise x, w')
    end.

Definition raise {A} (x : exn) : M A := fun _ w => (Raise x, w).

(** [try: body] / [except Exception as e: handler e] *)
Definition try_except {A} (body : M A) (handler : exn -> M A) : M A :=
  fun e w =>
    match body e w with
    | (Ret a, w') => (Ret a, w')
    | (Raise x, w') => handler x e w'
    end.

Definition ask : M env := fun e w => (Ret e, w).
Definition gets {A} (f : world -> A) : M A := fun _ w => (Ret (f w), w).
Definition modify (f : world -> world) : M unit := fun _ w => (Ret tt, f w).

(** The value a call returns and the world it leaves. *)
Definition result_of {A} (r : outcome A * world) : outcome A := fst r.
Definition world_of {A} (r : outcome A * world) : world := snd r.

End Eff.
Import Eff.

Declare Scope py_scope.
Delimit Scope py_scope with py.
Notation "x <- m ;; k" := (bind m (fun x => k))
  (at level 100, m at next level, right associativity) : py_scope.
Notation "m ;; k" := (bind m (fun _ => k))
  (at level 100, right associativity) : py_scope.
Local Open Scope py_scope.

(** ** The library calls the program makes *)

Module Lib.

(** Field updates of the world. *)
Definition with_file (f : file_state) (w : world) : world :=
  World f (fs_trace w) (stdout w) (posts w) (agent_runs w) (history w) (screen w).
Definition with_fs_op (o : fs_op) (w : world) : world :=
  World (appointments_json w) (fs_trace w ++ [o]) (stdout w) (posts w)
        (agent_runs w) (history w) (screen w).
Definition with_line (s : string) (w : world) : world :=
  World (appointments_json w) (fs_trace w) (stdout w ++ [s]) (posts w)
        (agent_runs w) (history w) (screen w).
Definition with_post (r : http_request) (w : world) : world :=
  World (appointments_json w) (fs_trace w) (stdout w) (posts w ++ [r])
        (agent_runs w) (history w) (screen w).
Definition with_agent_run (s : string) (w : world) : world :=
  World (appointments_json w) (fs_trace w) (stdout w) (posts w)
        (agent_runs w ++ [s]) (history w) (screen w).
Definition with_history (h : list (string * string)) (w : world) : world :=
  World (appointments_json w) (fs_trace w) (stdout w) (posts w)
        (agent_runs w) (Some h) (screen w).
Definition with_screen (s : list (string * string)) (w : world) : world :=
  World (appointments_json w) (fs_trace w) (stdout w) (posts w)
        (agent_runs w) (history w) s.

(** [print(s)]: the call is noted, and raises when the stream does. *)
Definition print (s : string) : M unit :=
  modify (with_line s) ;;
  e <- ask ;;
  match stdout_fault (disk_now e) with
  | Some x => raise x
  | None => ret tt
  end.

(** [os.path.exists("appointments.json")] *)
Definition os_path_exists : M bool :=
  modify (with_fs_op FsExists) ;;
  file <- gets appointments_json ;;
  ret (match file with Absent => false | Present _ => true end).

(** [open("appointments.json")]: the file is opened for reading. *)
Definition open_read : M unit :=
  modify (with_fs_op FsOpenRead) ;;
  e <- ask ;;
  file <- gets appointments_json ;;
  match file, open_read_fault (disk_now e) with
  | Absent, _ =>
      raise (Exn "FileNotFoundError"
                 "[Errno 2] No such file or directory: 'appointments.json'")
  | Present _, Some x => raise x
  | Present _, None => ret tt
  end.

(** [json.load(f)] on the file opened for reading. *)
Definition json_load : M pyobj :=
  modify (with_fs_op FsJsonLoad) ;;
  file <- gets appointments_json ;;
  match file with
  | Present (JsonText _ v) => ret v
  | Present (NotJson why) => raise (Exn "JSONDecodeError" why)
  | Present (PartOf _ _ why) => raise (Exn "JSONDecodeError" why)
  | Absent => raise (Exn "ValueError" "I/O operation on closed file.")
  end.

(** [open("appointments.json", "w")]: creates or empties the file. *)
Definition open_write : M unit :=
  modify (with_fs_op FsOpenWrite) ;;
  e <- ask ;;
  match open_write_fault (disk_now e) with
  | Some x => raise x
  | None => modify (with_file (Present truncated))
  end.

(** [json.dump(data, f, indent=indent)] on the file opened for writing:
    the whole text reaches the file, or the write raises part way and the
    file keeps the beginning of the text. *)
Definition json_dump (data : pyobj) (indent : nat) : M unit :=
  modify (with_fs_op (FsJsonDump data indent)) ;;
  e <- ask ;;
  match write_fault (disk_now e) with
  | Some (x, why) =>
      modify (with_file (Present (PartOf (Indented indent) data why))) ;;
      raise x
  | None => modify (with_file (Present (JsonText (Indented indent) data)))
  end.

(** [data.append(x)]: only a list has the method. *)
Definition append (data x : pyobj) : M pyobj :=
  match data with
  | PList xs => ret (PList (xs ++ [x]))
  | o => raise (Exn "AttributeError"
                    ("'" ++ type_name o ++ "' object has no attribute 'append'"))
  end.

(** The response of [requests.post]. *)
Record response : Type := Response { status_code : Z }.

(** [requests.post(url, headers=headers, json=payload)]: one request goes
    out; the call returns the response or raises what the transport
    raised. *)
Definition requests_post (url : string) (headers : list (string * string))
    (payload : pyobj) : M response :=
  let request := HttpRequest "POST" url headers payload in
  modify (with_post request) ;;
  e <- ask ;;
  match net e request with
  | Status code => ret (Response code)
  | NetError x => raise x
  end.

End Lib.
Import Lib.

(** ** The program *)

Module App.

(** *** Constants (lines 14 to 17) *)

Definition VERCEL_WEBHOOK_URL : string :=
  "https://giaic-q4.vercel.app/set-appointment".
Definition TWILIO_FROM : string := "whatsapp:+14155238886".
Definition PATIENT_NUMBER : string := "whatsapp:+923196560895".

(** *** [get_doctors] (lines 28 to 75) *)

Definition get_doctors : M pyobj :=
  ret (PDict [
    ("Dr. Khan", PDict [
      ("specialty", PStr "Dermatologist");
      ("availability", PDict [
        ("Monday to Friday", PDict [
          ("Morning", PStr "10:00 AM - 2:00 PM");
          ("Evening", PStr "7:00 PM - 10:00 PM")
        ])
      ])
    ]);
    ("Dr. Ahmed", PDict [
      ("specialty", PStr "Neurologist");
      ("availability", PDict [
        ("Monday to Friday", PDict [
          ("Evening", PStr "7:00 PM - 11:00 PM")
        ]);
        ("Saturday", PDict [
          ("Morning", PStr "10:00 AM - 2:00 PM");
          ("Evening", PStr "7:00 PM - 11:00 PM")
        ])
      ])
    ])
  ]).

(** *** [send_doctor_request] (lines 78 to 97) *)

Definition send_doctor_request (patient_name doctor_name date time : string)
    : M string :=
  try_except
    (let payload := PDict [
       ("patient_name", PStr patient_name);
       ("doctor_name", PStr doctor_name);
       ("date", PStr date);
       ("time", PStr time)
     ] in
     response <- requests_post
                   VERCEL_WEBHOOK_URL
                   [("Content-Type", "application/json")]
                   payload ;;
     if status_code response =? 200
     then ret "✅ Doctor notified via webhook!"
     else ret ("❌ Doctor notification failed (status code "
               ++ str_int (status_code response) ++ ")"))
    (fun e => ret ("❌ Webhook error: " ++ exn_str e)).

(** *** [save_to_json] (lines 109 to 118) *)

(** Line 113, right of the [=]: the stored collection, empty when there is
    no file. *)
Definition load_appointments : M pyobj :=
  present <- os_path_exists ;;
  if present : bool then (open_read ;; json_load) else ret (PList []).

(** The body of the [try] block. *)
Definition save_to_json_try (record : pyobj) : M unit :=
  data <- load_appointments ;;
  data <- append data record ;;
  open_write ;;
  json_dump data 2.

Definition save_to_json (patient_name doctor_name date time : string) : M unit :=
  let record := PDict [
    ("patient", PStr patient_name);
    ("doctor", PStr doctor_name);
    ("date", PStr date);
    ("time", PStr time)
  ] in
  try_except
    (save_to_json_try record)
    (fun e => print ("JSON save error: " ++ exn_str e)).

(** *** [confirm_patient] (lines 99 to 107) *)

Definition confirm_patient (patient_name doctor_name date time : string)
    : M string :=
  try_except
    (let message := "✅ Hello " ++ patient_name ++ ", your appointment with "
                    ++ doctor_name ++ " is confirmed on " ++ date ++ " at "
                    ++ time ++ "." in
     save_to_json patient_name doctor_name date time ;;
     ret "✅ Patient notified via WhatsApp (via webhook confirmation).")
    (fun e => ret ("❌ Failed to notify patient: " ++ exn_str e)).

(** *** The agent and [get_response] (lines 125 to 162) *)

(** A tool that raises does not end the run: the runner hands the model
    an error text in place of the result. *)
Definition tool_error (e : exn) : string :=
  "An error occurred while running the tool. Please try again. Error: "
  ++ exn_str e.

(** The runner follows the model's plan over the tools of the agent,
    [tools=[get_doctors, confirm_patient, send_doctor_request]]. *)
Fixpoint run_plan (p : agent_plan) : M string :=
  match p with
  | Final final_output => ret final_output
  | Fails e => raise e
  | CallGetDoctors k =>
      r <- try_except get_doctors (fun e => ret (PStr (tool_error e))) ;;
      run_plan (k r)
  | CallSendDoctorRequest patient_name doctor_name date time k =>
      r <- try_except (send_doctor_request patient_name doctor_name date time)
                      (fun e => ret (tool_error e)) ;;
      run_plan (k r)
  | CallConfirmPatient patient_name doctor_name date time k =>
      r <- try_except (confirm_patient patient_name doctor_name date time)
                      (fun e => ret (tool_error e)) ;;
      run_plan (k r)
  end.

(** [Runner.run(agent, input)]: the input is all the model is given. *)
Definition Runner_run (input : string) : M string :=
  modify (with_agent_run input) ;;
  e <- ask ;;
  run_plan (llm e input).

Definition get_response (user_input : string) : M string :=
  final_output <- Runner_run user_input ;;
  ret final_output.

(** *** The Streamlit script (lines 165 to 192) *)

(** [script] is the part of the file that works on the session, lines 170
    to 192. The page header of lines 165 to 167 draws fixed text and is
    left out; [st.chat_input] of line 174 is the argument [user_input].
    Streamlit runs the whole file at every run: the set-up of lines 11 to
    25 is [setup] below, and a run of the file is [streamlit_app]. *)

(** How one run of the script ends: it reaches the end, or [st.rerun()]
    stops it and asks for another run. *)
Inductive script_end : Type :=
| Finished
| Rerun.

(** The placeholder of a pending turn. *)
Definition thinking : string := "thinking...".

(** [if user_input:] for the value of [st.chat_input]: [None] and the empty
    string are false. *)
Definition truthy (user_input : option string) : option string :=
  match user_input with
  | Some EmptyString => None
  | other => other
  end.

(** [history[-1]] *)
Fixpoint last_turn (h : list (string * string)) : option (string * string) :=
  match h with
  | [] => None
  | [t] => Some t
  | _ :: rest => last_turn rest
  end.

(** [history[-1] = t]: an [IndexError] on the empty list. *)
Fixpoint set_last_turn (t : string * string) (h : list (string * string))
    : option (list (string * string)) :=
  match h with
  | [] => None
  | [_] => Some [t]
  | x :: rest =>
      match set_last_turn t rest with
      | Some rest' => Some (x :: rest')
      | None => None
      end
  end.

Definition session_history : M (list (string * string)) :=
  state <- gets history ;;
  match state with
  | Some h => ret h
  | None => raise (Exn "AttributeError"
                       "st.session_state has no attribute 'history'")
  end.

(** The loop of lines 176 to 180 draws one user and one assistant message
    for each turn. *)
Definition draw_turns (h : list (string * string)) : list (string * string) :=
  flat_map (fun t => [("user", fst t); ("assistant", snd t)]) h.

Definition script (user_input : option string) : M script_end :=
  (* lines 170, 171 *)
  state <- gets history ;;
  (match state with
   | None => modify (with_history [])
   | Some _ => ret tt
   end) ;;
  (* lines 176 to 180 *)
  h <- session_history ;;
  modify (with_screen (draw_turns h)) ;;
  (* lines 182 to 184 *)
  match truthy user_input with
  | Some text =>
      h <- session_history ;;
      modify (with_history (h ++ [(text, thinking)])) ;;
      ret Rerun
  | None =>
      (* lines 186 to 192 *)
      h <- session_history ;;
      match last_turn h with
      | Some (last_user_message, assistant_msg) =>
          if String.eqb assistant_msg thinking then
            response <- get_response last_user_message ;;
            h <- session_history ;;
            match set_last_turn (last_user_message, response) h with
            | Some h' => modify (with_history h') ;; ret Rerun
            | None => raise (Exn "IndexError" "list assignment index out of range")
            end
          else ret Finished
      | None => ret Finished
      end
  end.

(** *** The session around the script *)

(** Streamlit runs the script when the user submits a message and again
    whenever a run ended in [st.rerun()]; a run that raises shows the error
    and ends. The session state outlives the runs. *)
Inductive run_end : Type :=
| Ended
| RerunRequested
| Crashed (e : exn).

Definition session : Type := (world * run_end)%type.

Definition new_session : session := (initial_world, Ended).

(** One run of the script. While a rerun is due the script runs again
    without input; otherwise it runs with what the user submitted, if
    anything. *)
Definition run_once (e : env) (submitted : option string) (s : session) : session :=
  let user_input :=
    match snd s with
    | RerunRequested => None
    | _ => submitted
    end in
  match script user_input e (fst s) with
  | (Ret Finished, w) => (w, Ended)
  | (Ret Rerun, w) => (w, RerunRequested)
  | (Raise x, w) => (w, Crashed x)
  end.

(** A session: the runs of the script in order, each with the environment
    it meets and the message submitted before it. *)
Definition run_session (runs : list (env * option string)) (s : session) : session :=
  fold_left (fun s r => run_once (fst r) (snd r) s) runs s.

(** *** The set-up of the model (lines 11 to 25) and a run of the file *)

(** The variables of the process once [load_dotenv()] has run, as
    [os.getenv] reads them. *)
Definition environ : Type := string -> option string.

(** The client and the model of lines 21 to 25. *)
Record openai_client : Type := OpenAIClient {
  api_key : string;
  base_url : string
}.

Record chat_model : Type := ChatModel {
  model_name : string;
  client : openai_client
}.

(** [AsyncOpenAI(api_key=..., base_url=...)]: a key that is [None] is
    looked up in the variable OPENAI_API_KEY, and the constructor raises
    when there is none there either. *)
Definition AsyncOpenAI (getenv : environ) (key : option string) (url : string)
    : M openai_client :=
  let key :=
    match key with
    | Some k => Some k
    | None => getenv "OPENAI_API_KEY"
    end in
  match key with
  | Some k => ret (OpenAIClient k url)
  | None =>
      raise (Exn "OpenAIError"
                 "The api_key client option must be set either by passing api_key to the client or by setting the OPENAI_API_KEY environment variable")
  end.

Definition setup (getenv : environ) : M chat_model :=
  let gemini_api_key := getenv "GEMINI_API_KEY" in
  external_client <- AsyncOpenAI getenv gemini_api_key
                       "https://generativelanguage.googleapis.com/v1beta/" ;;
  ret (ChatModel "gemini-2.5-flash" external_client).

(** One run of the file: the page starts empty, the model is set up, the
    tools and the agent are defined, and the script works on the session. *)
Definition streamlit_app (getenv : environ) (user_input : option string)
    : M script_end :=
  modify (with_screen []) ;;
  model <- setup getenv ;;
  script user_input.

(** The session around the file: as [run_once] and [run_session], with
    the variables of the process at each run. *)
Definition run_file_once (e : env) (getenv : environ) (submitted : option string)
    (s : session) : session :=
  let user_input :=
    match snd s with
    | RerunRequested => None
    | _ => submitted
    end in
  match streamlit_app getenv user_input e (fst s) with
  | (Ret Finished, w) => (w, Ended)
  | (Ret Rerun, w) => (w, RerunRequested)
  | (Raise x, w) => (w, Crashed x)
  end.


End App.
Import App.

(** ** The vocabulary of the specification *)

Module Spec.

(** *** NotificationClient *)

(** The three outcomes of [notifyDoctor], and the one the webhook's answer
    calls for. *)
Inductive notify_outcome : Type :=
| Success
| RemoteRejected (statusCode : Z)
| TransportFailure (message : string).

Definition outcome_of_reply (r : http_reply) : notify_outcome :=
  match r with
  | Status code => if code =? 200 then Success else RemoteRejected code
  | NetError x => TransportFailure (exn_str x)
  end.

(** The string [send_doctor_request] has for each outcome (lines 93, 95
    and 97). *)
Definition notify_string (o : notify_outcome) : string :=
  match o with
  | Success => "✅ Doctor notified via webhook!"
  | RemoteRejected code =>
      "❌ Doctor notification failed (status code " ++ str_int code ++ ")"
  | TransportFailure message => "❌ Webhook error: " ++ message
  end.

(** The request a call of [send_doctor_request] is to send. *)
Definition webhook_request (patientName doctorName date time : string)
    : http_request :=
  HttpRequest "POST" "https://giaic-q4.vercel.app/set-appointment"
    [("Content-Type", "application/json")]
    (PDict [("patient_name", PStr patientName);
            ("doctor_name", PStr doctorName);
            ("date", PStr date);
            ("time", PStr time)]).

(** *** DoctorDirectory *)

(** A period of a day range: a label and a time range, both given. *)
Definition period_ok (p : string * pyobj) : Prop :=
  fst p <> EmptyString /\
  exists range, snd p = PStr range /\ range <> EmptyString.

(** A day range with at least one period. *)
Definition window_ok (d : string * pyobj) : Prop :=
  exists periods,
    snd d = PDict periods /\ periods <> [] /\ Forall period_ok periods.

(** An entry of the directory: a specialty that is a non-empty string and
    at least one availability window. *)
Definition doctor_ok (d : string * pyobj) : Prop :=
  exists specialty availability,
    getitem "specialty" (snd d) = Some (PStr specialty) /\
    specialty <> EmptyString /\
    getitem "availability" (snd d) = Some (PDict availability) /\
    availability <> [] /\
    Forall window_ok availability.

(** *** ChatSession *)

(** A turn is pending while its assistant message is the placeholder
    (the test of line 186), answered otherwise. *)
Definition pending (t : string * string) : bool := String.eqb (snd t) thinking.

(** The turns of a session; none before the history is set. *)
Definition turns (w : world) : list (string * string) :=
  match history w with
  | Some h => h
  | None => []
  end.

(** No turn before the last is pending. *)
Fixpoint only_last_may_be_pending (h : list (string * string)) : bool :=
  match h with
  | [] => true
  | [_] => true
  | t :: rest => negb (pending t) && only_last_may_be_pending rest
  end.

(** The number of pending turns. *)
Definition pending_count (h : list (string * string)) : nat :=
  length (filter pending h).

(** A world with other session fields: history and screen. *)
Definition with_session (h : option (list (string * string)))
    (sc : list (string * string)) (w : world) : world :=
  World (appointments_json w) (fs_trace w) (stdout w) (posts w)
        (agent_runs w) h sc.

(** A computation that neither reads nor writes the session fields. *)
Definition session_blind {A} (m : M A) : Prop :=
  forall e w h sc,
    m e (with_session h sc w)
    = (result_of (m e w), with_session h sc (world_of (m e w))).

(** A computation that leaves a part of the world as it was. *)
Definition keeps {A B} (part : world -> B) (m : M A) : Prop :=
  forall e w, part (world_of (m e w)) = part w.

(** The world once lines 170 to 180 have run. *)
Definition drawn (w : world) : world :=
  with_session (Some (turns w)) (draw_turns (turns w)) w.




(** *** AppointmentStore *)

(** The arguments of one booking. *)
Record appointment : Type := Appointment {
  a_patient : string;
  a_doctor : string;
  a_date : string;
  a_time : string
}.

(** [recordAppointment] is the tool [confirm_patient]. *)
Definition recordAppointment (a : appointment) : M string :=
  confirm_patient (a_patient a) (a_doctor a) (a_date a) (a_time a).

(** The string [confirm_patient] returns on line 105, and the opening of
    the one on line 107. *)
Definition confirmation : string :=
  "✅ Patient notified via WhatsApp (via webhook confirmation).".
Definition failed_to_notify : string := "❌ Failed to notify patient: ".

(** The object stored for a booking (line 110). *)
Definition record_of (a : appointment) : pyobj :=
  PDict [("patient", PStr (a_patient a));
         ("doctor", PStr (a_doctor a));
         ("date", PStr (a_date a));
         ("time", PStr (a_time a))].

(** The four fields of a stored object, when it has them as strings. *)
Definition record_fields (o : pyobj) : option appointment :=
  match getitem "patient" o, getitem "doctor" o,
        getitem "date" o, getitem "time" o with
  | Some (PStr p), Some (PStr d), Some (PStr dt), Some (PStr t) =>
      Some (Appointment p d dt t)
  | _, _, _, _ => None
  end.

(** An object of the shape patient, doctor, date, time, all strings. *)
Definition is_record (o : pyobj) : Prop := exists a, o = record_of a.

(** The collection a world stores: the array in the file, the empty
    collection when there is no file; none when the file holds something
    else. *)
Definition stored (w : world) : option (list pyobj) :=
  match appointments_json w with
  | Absent => Some []
  | Present (JsonText _ (PList xs)) => Some xs
  | Present _ => None
  end.

(** A call is successful when its record is persisted, that is when the
    [try] block of [save_to_json] runs to its end. *)
Definition persists (e : env) (a : appointment) (w : world) : bool :=
  match result_of (save_to_json_try (record_of a) e w) with
  | Ret _ => true
  | Raise _ => false
  end.

(** A sequence of calls, each in the environment it meets. *)
Fixpoint record_all (calls : list (env * appointment)) (w : world) : world :=
  match calls with
  | [] => w
  | (e, a) :: rest => record_all rest (world_of (recordAppointment a e w))
  end.

Fixpoint all_persist (calls : list (env * appointment)) (w : world) : bool :=
  match calls with
  | [] => true
  | (e, a) :: rest =>
      persists e a w && all_persist rest (world_of (recordAppointment a e w))
  end.

(** The file system calls of one successful [save_to_json], given the file
    it finds and the collection it writes. *)
Definition read_modify_write (found : file_state) (written : list pyobj)
    : list fs_op :=
  match found with
  | Absent => [FsExists; FsOpenWrite; FsJsonDump (PList written) 2]
  | Present _ =>
      [FsExists; FsOpenRead; FsJsonLoad; FsOpenWrite; FsJsonDump (PList written) 2]
  end.

(** The world a successful [save_to_json] leaves, given the collection
    [xs] it read and the booking it appends. *)
Definition saved (xs : list pyobj) (a : appointment) (w : world) : world :=
  World (Present (JsonText (Indented 2) (PList (xs ++ [record_of a]))))
        (fs_trace w ++ read_modify_write (appointments_json w) (xs ++ [record_of a]))
        (stdout w) (posts w) (agent_runs w) (history w) (screen w).

(** What a write that fails part way leaves in the file, for a call in
    environment [e] on world [w] with booking [a]: the file could be opened
    for writing, the write raised, and the file holds the beginning of the
    text of the new array (the collection found and the new record), which
    does not decode. *)
Definition cut_short (e : env) (w : world) (a : appointment) (left : file_state)
    : Prop :=
  exists xs x why,
    stored w = Some xs /\
    open_write_fault (disk_now e) = None /\
    write_fault (disk_now e) = Some (x, why) /\
    left = Present (PartOf (Indented 2) (PList (xs ++ [record_of a])) why).

(** A file that, when it holds an array, holds records only. *)
Definition holds_records_only (w : world) : Prop :=
  forall xs, stored w = Some xs -> Forall is_record xs.

(** A plan of the model that never calls [confirm_patient]. *)
Inductive confirm_free : agent_plan -> Prop :=
| cf_final : forall s, confirm_free (Final s)
| cf_fails : forall x, confirm_free (Fails x)
| cf_get_doctors : forall k,
    (forall r, confirm_free (k r)) -> confirm_free (CallGetDoctors k)
| cf_send : forall p d dt t k,
    (forall r, confirm_free (k r)) ->
    confirm_free (CallSendDoctorRequest p d dt t k).

(** The contract of [recordAppointment] in the words of the specification:
    Success when the record was persisted, a failure outcome with a message
    when the local write failed. *)
Definition reports_persistence (e : env) (w : world) (a : appointment) : Prop :=
  (persists e a w = true ->
     result_of (recordAppointment a e w) = Ret confirmation) /\
  (persists e a w = false ->
     exists message,
       result_of (recordAppointment a e w) = Ret message /\
       failure_marked message = true).

End Spec.
Import Spec.

(** ** Sample surroundings and bookings *)

Module Samples.

(** A webhook that acknowledges, a disk without faults, a model that
    answers with its input. *)
Definition healthy : env :=
  Env (fun _ => Status 200) healthy_disk (fun input => Final input).

(** The same, in a directory that cannot be written. *)
Definition read_only : env :=
  Env (fun _ => Status 200)
      (Disk None
            (Some (Exn "PermissionError"
                       "[Errno 13] Permission denied: 'appointments.json'"))
            None None)
      (fun input => Final input).

(** The same, with the language model out of reach. *)
Definition offline : env :=
  Env (fun _ => Status 200) healthy_disk
      (fun _ => Fails (Exn "APIConnectionError" "Connection error.")).

(** A webhook that answers with a server error, and one that cannot be
    reached. *)
Definition failing_webhook : env :=
  Env (fun _ => Status 500) healthy_disk (fun input => Final input).
Definition unreachable_webhook : env :=
  Env (fun _ => NetError (Exn "ConnectionError" "Max retries exceeded"))
      healthy_disk (fun input => Final input).

(** A directory that cannot be written, under a process whose standard
    output is a pipe that was closed. *)
Definition read_only_and_mute : env :=
  Env (fun _ => Status 200)
      (Disk None
            (Some (Exn "PermissionError"
                       "[Errno 13] Permission denied: 'appointments.json'"))
            None
            (Some (Exn "BrokenPipeError" "[Errno 32] Broken pipe")))
      (fun input => Final input).

(** A disk that fills up while the file is written. *)
Definition full_disk : env :=
  Env (fun _ => Status 200)
      (Disk None None
            (Some (Exn "OSError" "[Errno 28] No space left on device",
                   "Expecting property name enclosed in double quotes: line 2 column 4 (char 5)"))
            None)
      (fun input => Final input).

Definition ali : appointment :=
  Appointment "Ali Raza" "Dr. Khan" "Monday" "11:00 AM".
Definition sara : appointment :=
  Appointment "Sara Malik" "Dr. Ahmed" "Saturday" "8:00 PM".

Definition two_bookings : list (env * appointment) :=
  [(healthy, ali); (healthy, sara)].

(** A session in which the model is out of reach when the first message
    is to be answered: the message is submitted, the rerun fails, a second
    message is submitted and answered. *)
Definition session_with_failed_reply : list (env * option string) :=
  [(healthy, Some "Is Dr. Khan free on Monday?");
   (offline, None);
   (healthy, Some "Hello?");
   (healthy, None);
   (healthy, None)].

End Samples.
Import Samples.

(** ** Further vocabulary: failures, frames and sessions *)

Module Edges.

(** What the disk raises between line 115 and line 116, if anything:
    opening for writing comes first, writing second. *)
Definition write_failure (e : env) : option exn :=
  match open_write_fault (disk_now e) with
  | Some x => Some x
  | None => option_map fst (write_fault (disk_now e))
  end.

(** The exception the [try] block of [save_to_json] meets first, if any,
    in the order of its lines: reading the file that exists, decoding it,
    appending to what was decoded, opening for writing, writing. *)
Definition first_failure (e : env) (w : world) : option exn :=
  match appointments_json w with
  | Absent => write_failure e
  | Present text =>
      match open_read_fault (disk_now e) with
      | Some x => Some x
      | None =>
          match text with
          | NotJson why => Some (Exn "JSONDecodeError" why)
          | PartOf _ _ why => Some (Exn "JSONDecodeError" why)
          | JsonText _ (PList _) => write_failure e
          | JsonText _ v =>
              Some (Exn "AttributeError"
                        ("'" ++ type_name v ++ "' object has no attribute 'append'"))
          end
      end
  end.

(** The records of the calls of a sequence that were persisted, in order. *)
Fixpoint persisted_records (calls : list (env * appointment)) (w : world)
    : list pyobj :=
  match calls with
  | [] => []
  | (e, a) :: rest =>
      (if persists e a w then [record_of a] else [])
      ++ persisted_records rest (world_of (recordAppointment a e w))
  end.

(** The number of calls of a sequence that were not persisted. *)
Fixpoint failed_calls (calls : list (env * appointment)) (w : world) : nat :=
  match calls with
  | [] => 0%nat
  | (e, a) :: rest =>
      ((if persists e a w then 0 else 1)
       + failed_calls rest (world_of (recordAppointment a e w)))%nat
  end.




(** A computation that goes through an update [u] of the world: it runs
    the same whether [u] is made before or after it. *)
Definition passes {A} (u : world -> world) (m : M A) : Prop :=
  forall e w, m e (u w) = (result_of (m e w), u (world_of (m e w))).



(** A model that books on every message: the directory, the webhook, the
    confirmation, then a fixed reply. *)
Definition booking_model (input : string) : agent_plan :=
  CallGetDoctors (fun _ =>
    CallSendDoctorRequest input "Dr. Khan" "Monday" "11:00 AM" (fun _ =>
      CallConfirmPatient input "Dr. Khan" "Monday" "11:00 AM" (fun _ =>
        Final "✅ Appointment booked successfully."))).

Definition booking : env :=
  Env (fun _ => Status 200) healthy_disk booking_model.

(** A model that answers with the placeholder itself. *)
Definition echoing_placeholder : env :=
  Env (fun _ => Status 200) healthy_disk (fun _ => Final thinking).


Definition without_key : environ := fun _ => None.

(** A file that holds a JSON object, not an array. *)
Definition object_in_file : world :=
  with_file (Present (JsonText Unformatted (PDict []))) initial_world.

End Edges.
Import Edges.

(* ===================================================================== *)
(** * Part II: the properties *)
(* ===================================================================== *)

(** ** Running the monad *)

Lemma bind_ret {A B} (m : M A) (k : A -> M B) e w a w' :
  m e w = (Ret a, w') -> bind m k e w = k a e w'.
Proof. intros H. unfold bind. now rewrite H. Qed.

Lemma bind_raise {A B} (m : M A) (k : A -> M B) e w x w' :
  m e w = (Raise x, w') -> bind m k e w = (Raise x, w').
Proof. intros H. unfold bind. now rewrite H. Qed.

Lemma try_except_ret {A} (m : M A) h e w a w' :
  m e w = (Ret a, w') -> try_except m h e w = (Ret a, w').
Proof. intros H. unfold try_except. now rewrite H. Qed.

Lemma try_except_raise {A} (m : M A) h e w x w' :
  m e w = (Raise x, w') -> try_except m h e w = h x e w'.
Proof. intros H. unfold try_except. now rewrite H. Qed.

Lemma includes_middle (a b c : string) : includes b (a ++ b ++ c).
Proof. now exists a, c. Qed.

Lemma append_empty_r (s : string) : (s ++ EmptyString)%string = s.
Proof. induction s as [| c s IH]; simpl; [reflexivity | now rewrite IH]. Qed.

Lemma includes_suffix (a b : string) : includes b (a ++ b).
Proof. exists a, EmptyString. now rewrite append_empty_r. Qed.

(** ** DoctorDirectory *)

Module DoctorDirectory.

(** C5. [get_doctors] takes no input, returns the same mapping whatever the
    environment and the world, and leaves the world as it was; the mapping
    has two doctors under distinct names, hence is not empty, and every
    entry has a non-empty specialty string and at least one availability
    window (a day range with at least one period). *)
Theorem get_doctors_pure_and_well_formed :
  exists doctors,
    (forall e w, get_doctors e w = (Ret (PDict doctors), w)) /\
    doctors <> [] /\
    NoDup (map fst doctors) /\
    Forall doctor_ok doctors.
Proof.
  eexists. split; [reflexivity|].
  split; [discriminate|].
  split.
  - repeat constructor; simpl; intuition discriminate.
  - repeat first
      [ apply Forall_nil
      | apply Forall_cons
      | progress (unfold doctor_ok, window_ok, period_ok; simpl)
      | eexists
      | split
      | reflexivity
      | discriminate ].
Qed.

End DoctorDirectory.

(** ** NotificationClient *)

Module NotificationClient.

(** The request built by [send_doctor_request] is the one of the
    specification. *)
Lemma request_sent (patient_name doctor_name date time : string) :
  HttpRequest "POST" VERCEL_WEBHOOK_URL
    [("Content-Type", "application/json")]
    (PDict [("patient_name", PStr patient_name);
            ("doctor_name", PStr doctor_name);
            ("date", PStr date);
            ("time", PStr time)])
  = webhook_request patient_name doctor_name date time.
Proof. reflexivity. Qed.

(** One call, run to its end: the request is logged, and the answer of the
    network decides the string. *)
Lemma send_doctor_request_run (e : env) (w : world)
    (patient_name doctor_name date time : string) :
  send_doctor_request patient_name doctor_name date time e w
  = (Ret (notify_string
            (outcome_of_reply
               (net e (webhook_request patient_name doctor_name date time)))),
     with_post (webhook_request patient_name doctor_name date time) w).
Proof.
  rewrite <- request_sent.
  cbv [send_doctor_request try_except bind requests_post modify ask ret raise].
  destruct (net e _) as [code | x].
  - cbv [status_code outcome_of_reply]. destruct (code =? 200); reflexivity.
  - reflexivity.
Qed.

Lemma rejected_string_includes_code (code : Z) :
  includes (str_int code) (notify_string (RemoteRejected code)).
Proof. apply includes_middle. Qed.

Lemma failure_string_includes_text (message : string) :
  includes message (notify_string (TransportFailure message)).
Proof. apply includes_suffix. Qed.

Example acknowledged :
  result_of (send_doctor_request "Ali Raza" "Dr. Khan" "Monday" "11:00 AM"
               healthy initial_world)
  = Ret "✅ Doctor notified via webhook!".
Proof. reflexivity. Qed.

Example rejected_with_500 :
  result_of (send_doctor_request "Ali Raza" "Dr. Khan" "Monday" "11:00 AM"
               failing_webhook initial_world)
  = Ret "❌ Doctor notification failed (status code 500)".
Proof. reflexivity. Qed.

Example transport_down :
  result_of (send_doctor_request "Ali Raza" "Dr. Khan" "Monday" "11:00 AM"
               unreachable_webhook initial_world)
  = Ret "❌ Webhook error: Max retries exceeded".
Proof. reflexivity. Qed.

(** C1. Whatever the arguments, the environment and the world, a call of
    [send_doctor_request] returns a string and never raises. With [reply]
    the answer of the network to the request: on status 200 the string is
    the success string; on any other status it is the rejection string,
    failure marked, which includes the decimal status code (so it includes
    500 on status 500); when the transport raises it is the transport
    failure string, failure marked, which includes the text of the
    exception. *)
Theorem send_doctor_request_outcomes :
  forall (e : env) (w : world) (patientName doctorName date time : string),
    let reply := net e (webhook_request patientName doctorName date time) in
    let result := result_of (send_doctor_request patientName doctorName date time e w) in
    (exists s, result = Ret s) /\
    result = Ret (notify_string (outcome_of_reply reply)) /\
    (reply = Status 200 ->
       result = Ret "✅ Doctor notified via webhook!") /\
    (forall code, reply = Status code -> code <> 200 ->
       exists message,
         result = Ret message /\
         message = notify_string (RemoteRejected code) /\
         failure_marked message = true /\
         success_marked message = false /\
         includes (str_int code) message) /\
    (reply = Status 500 ->
       exists message, result = Ret message /\ includes "500" message) /\
    (forall x, reply = NetError x ->
       exists message,
         result = Ret message /\
         message = notify_string (TransportFailure (exn_str x)) /\
         failure_marked message = true /\
         success_marked message = false /\
         includes (exn_str x) message).
Proof.
  intros e w patientName doctorName date time reply result.
  assert (Hrun : result = Ret (notify_string (outcome_of_reply reply))).
  { unfold result, result_of. now rewrite send_doctor_request_run. }
  split; [eexists; exact Hrun|].
  split; [exact Hrun|].
  split; [|split; [|split]].
  - intros Hr. rewrite Hrun, Hr. reflexivity.
  - intros code Hr Hne. rewrite Hrun, Hr. simpl.
    apply Z.eqb_neq in Hne. rewrite Hne.
    eexists. split; [reflexivity|]. split; [reflexivity|].
    split; [reflexivity|]. split; [reflexivity|].
    apply rejected_string_includes_code.
  - intros Hr. rewrite Hrun, Hr. simpl.
    eexists. split; [reflexivity|].
    apply (rejected_string_includes_code 500).
  - intros x Hr. rewrite Hrun, Hr. simpl.
    eexists. split; [reflexivity|]. split; [reflexivity|].
    split; [reflexivity|]. split; [reflexivity|].
    apply failure_string_includes_text.
Qed.


End NotificationClient.

(** ** Runs of the script and of the agent *)

Module Script.

(** *** The last turn of a history *)

Lemma last_turn_snoc (h : list (string * string)) (t : string * string) :
  last_turn (h ++ [t]) = Some t.
Proof.
  induction h as [| x h IH]; [reflexivity|].
  simpl. destruct (h ++ [t])%list eqn:E; [now destruct h | exact IH].
Qed.

Lemma set_last_turn_snoc (h : list (string * string)) (t t' : string * string) :
  set_last_turn t' (h ++ [t]) = Some (h ++ [t'])%list.
Proof.
  induction h as [| x h IH]; [reflexivity|].
  simpl. destruct (h ++ [t])%list eqn:E; [now destruct h|].
  now rewrite IH.
Qed.

Lemma last_turn_inv (h : list (string * string)) (t : string * string) :
  last_turn h = Some t -> exists earlier, h = (earlier ++ [t])%list.
Proof.
  induction h as [| x h IH]; [discriminate|].
  simpl. destruct h as [| y h'].
  - intros [= <-]. now exists [].
  - intros Hl. destruct (IH Hl) as (earlier & ->). now exists (x :: earlier).
Qed.


(** *** Computations blind to the session *)

Lemma blind_ret {A} (a : A) : session_blind (ret a).
Proof. intros e w h sc. reflexivity. Qed.

Lemma blind_raise {A} (x : exn) : session_blind (@raise A x).
Proof. intros e w h sc. reflexivity. Qed.

Lemma blind_ask : session_blind ask.
Proof. intros e w h sc. reflexivity. Qed.

Lemma blind_bind {A B} (m : M A) (k : A -> M B) :
  session_blind m -> (forall a, session_blind (k a)) -> session_blind (bind m k).
Proof.
  intros Hm Hk e w h sc. unfold bind. rewrite Hm.
  unfold result_of, world_of. destruct (m e w) as [[a | x] w1]; simpl.
  - apply Hk.
  - reflexivity.
Qed.

Lemma blind_try_except {A} (m : M A) (handler : exn -> M A) :
  session_blind m -> (forall x, session_blind (handler x)) ->
  session_blind (try_except m handler).
Proof.
  intros Hm Hh e w h sc. unfold try_except. rewrite Hm.
  unfold result_of, world_of. destruct (m e w) as [[a | x] w1]; simpl.
  - reflexivity.
  - apply Hh.
Qed.

Lemma blind_gets {A} (f : world -> A) :
  (forall h sc w, f (with_session h sc w) = f w) -> session_blind (gets f).
Proof. intros Hf e w h sc. unfold gets. now rewrite Hf. Qed.

Lemma blind_modify (f : world -> world) :
  (forall h sc w, f (with_session h sc w) = with_session h sc (f w)) ->
  session_blind (modify f).
Proof. intros Hf e w h sc. unfold modify. now rewrite Hf. Qed.

(** Splits a computation into its library calls. *)
Ltac blind :=
  repeat first
    [ apply blind_bind; [| intros ?]
    | apply blind_try_except; [| intros ?]
    | apply blind_ret
    | apply blind_raise
    | apply blind_ask
    | apply blind_gets; reflexivity
    | apply blind_modify; reflexivity
    | match goal with
      | |- session_blind (match ?x with _ => _ end) => destruct x
      | |- session_blind (if ?x then _ else _) => destruct x
      end ].

Lemma blind_get_doctors : session_blind get_doctors.
Proof. unfold get_doctors. blind. Qed.

Lemma blind_send_doctor_request (patient_name doctor_name date time : string) :
  session_blind (send_doctor_request patient_name doctor_name date time).
Proof. unfold send_doctor_request, requests_post. blind. Qed.

Lemma blind_confirm_patient (patient_name doctor_name date time : string) :
  session_blind (confirm_patient patient_name doctor_name date time).
Proof.
  unfold confirm_patient, save_to_json, save_to_json_try, load_appointments,
    os_path_exists, open_read, json_load, Lib.append, open_write, json_dump, print.
  blind.
Qed.

Lemma blind_run_plan (p : agent_plan) : session_blind (run_plan p).
Proof.
  induction p as [s | x | k IH | pn dn dt t k IH | pn dn dt t k IH]; simpl.
  - blind.
  - blind.
  - apply blind_bind; [| exact IH].
    apply blind_try_except; [apply blind_get_doctors | intros; blind].
  - apply blind_bind; [| exact IH].
    apply blind_try_except; [apply blind_send_doctor_request | intros; blind].
  - apply blind_bind; [| exact IH].
    apply blind_try_except; [apply blind_confirm_patient | intros; blind].
Qed.

Lemma blind_get_response (user_input : string) :
  session_blind (get_response user_input).
Proof.
  unfold get_response, Runner_run.
  apply blind_bind; [| intros; blind].
  apply blind_bind; [blind |]. intros _.
  intros e w h sc. unfold bind, ask. apply blind_run_plan.
Qed.

(** *** Computations that keep a part of the world *)

Section Keeps.

Context {B : Type} (part : world -> B).

Lemma keeps_ret {A} (a : A) : keeps part (ret a).
Proof. intros e w. reflexivity. Qed.

Lemma keeps_raise {A} (x : exn) : keeps part (@raise A x).
Proof. intros e w. reflexivity. Qed.

Lemma keeps_ask : keeps part ask.
Proof. intros e w. reflexivity. Qed.

Lemma keeps_gets {A} (f : world -> A) : keeps part (gets f).
Proof. intros e w. reflexivity. Qed.

Lemma keeps_modify (f : world -> world) :
  (forall w, part (f w) = part w) -> keeps part (modify f).
Proof. intros Hf e w. apply Hf. Qed.

Lemma keeps_bind {A C} (m : M A) (k : A -> M C) :
  keeps part m -> (forall a, keeps part (k a)) -> keeps part (bind m k).
Proof.
  intros Hm Hk e w. unfold bind. specialize (Hm e w). unfold world_of in *.
  destruct (m e w) as [[a | x] w1]; simpl in *.
  - rewrite <- Hm. apply Hk.
  - exact Hm.
Qed.

Lemma keeps_try_except {A} (m : M A) (handler : exn -> M A) :
  keeps part m -> (forall x, keeps part (handler x)) ->
  keeps part (try_except m handler).
Proof.
  intros Hm Hh e w. unfold try_except. specialize (Hm e w). unfold world_of in *.
  destruct (m e w) as [[a | x] w1]; simpl in *.
  - exact Hm.
  - rewrite <- Hm. apply Hh.
Qed.

End Keeps.

(** Splits a computation into its library calls; what is left are the
    updates of the world, to be checked against the part kept. *)
Ltac keeps :=
  repeat first
    [ apply keeps_bind; [| intros ?]
    | apply keeps_try_except; [| intros ?]
    | apply keeps_ret
    | apply keeps_raise
    | apply keeps_ask
    | apply keeps_gets
    | apply keeps_modify; intros ?; reflexivity
    | match goal with
      | |- keeps _ (match ?x with _ => _ end) => destruct x
      | |- keeps _ (if ?x then _ else _) => destruct x
      end ].

Lemma tools_keep_agent_runs :
  keeps agent_runs get_doctors /\
  (forall p d dt t, keeps agent_runs (send_doctor_request p d dt t)) /\
  (forall p d dt t, keeps agent_runs (confirm_patient p d dt t)).
Proof.
  split; [|split]; intros.
  - unfold get_doctors. keeps.
  - unfold send_doctor_request, requests_post. keeps.
  - unfold confirm_patient, save_to_json, save_to_json_try, load_appointments,
      os_path_exists, open_read, json_load, Lib.append, open_write, json_dump, print.
    keeps.
Qed.

Lemma run_plan_keeps_agent_runs (p : agent_plan) : keeps agent_runs (run_plan p).
Proof.
  destruct tools_keep_agent_runs as (Hg & Hs & Hc).
  induction p as [s | x | k IH | pn dn dt t k IH | pn dn dt t k IH]; simpl.
  - keeps.
  - keeps.
  - apply keeps_bind; [| exact IH].
    apply keeps_try_except; [exact Hg | intros; keeps].
  - apply keeps_bind; [| exact IH].
    apply keeps_try_except; [apply Hs | intros; keeps].
  - apply keeps_bind; [| exact IH].
    apply keeps_try_except; [apply Hc | intros; keeps].
Qed.

(** A run of the agent is logged with its input, once. *)
Lemma get_response_logs_input (e : env) (w : world) (user_input : string) :
  agent_runs (world_of (get_response user_input e w))
  = (agent_runs w ++ [user_input])%list.
Proof.
  assert (H : world_of (get_response user_input e w)
              = world_of (run_plan (llm e user_input) e (with_agent_run user_input w))).
  { unfold get_response, Runner_run, bind, modify, ask, ret, world_of. simpl.
    destruct (run_plan (llm e user_input) e (with_agent_run user_input w))
      as [[r | x] w1]; reflexivity. }
  rewrite H. now rewrite run_plan_keeps_agent_runs.
Qed.

(** *** One run of the script *)

(** A submitted message opens a pending turn and asks for a rerun. *)
Lemma script_submit (e : env) (w : world) (input : option string) (text : string) :
  truthy input = Some text ->
  script input e w
  = (Ret Rerun,
     with_session (Some (turns w ++ [(text, thinking)])%list)
                  (draw_turns (turns w)) w).
Proof.
  intros Ht. unfold turns. destruct w as [f tr out ps ar [h |] sc];
    unfold script, session_history, bind, gets, modify, ret; simpl;
    rewrite Ht; reflexivity.
Qed.

(** Without a message, and with nothing pending at the end of the history,
    the script draws the turns and ends. *)
Lemma script_idle (e : env) (w : world) (input : option string) :
  truthy input = None ->
  match last_turn (turns w) with
  | Some t => pending t = false
  | None => True
  end ->
  script input e w = (Ret Finished, drawn w).
Proof.
  intros Ht Hl. unfold drawn, turns in *.
  destruct w as [f tr out ps ar [h |] sc];
    unfold script, session_history, bind, gets, modify, ret; simpl in *;
    rewrite Ht; simpl; [| reflexivity].
  destruct (last_turn h) as [[u a] |]; [| reflexivity].
  unfold pending in Hl. simpl in Hl. rewrite Hl. reflexivity.
Qed.

(** Without a message, and with the last turn pending, the script runs the
    agent on the user message of that turn, in a world where the agent
    finds no session state; a reply takes the place of the placeholder,
    a raise ends the run with the turn as it was. *)
Lemma script_answer (e : env) (w : world) (input : option string)
    (earlier : list (string * string)) (user_message : string) :
  truthy input = None ->
  turns w = (earlier ++ [(user_message, thinking)])%list ->
  script input e w
  = match get_response user_message e (with_session None [] w) with
    | (Ret reply, w') =>
        (Ret Rerun,
         with_session (Some (earlier ++ [(user_message, reply)])%list)
                      (draw_turns (turns w)) w')
    | (Raise x, w') =>
        (Raise x, with_session (Some (turns w)) (draw_turns (turns w)) w')
    end.
Proof.
  intros Ht Hh. unfold turns in *.
  destruct w as [f tr out ps ar [h |] sc]; simpl in Hh;
    [| now destruct earlier].
  subst h. simpl history. cbv iota.
  set (h := (earlier ++ [(user_message, thinking)])%list).
  unfold script.
  erewrite bind_ret; [| reflexivity].
  erewrite bind_ret; [| reflexivity].
  erewrite bind_ret; [| reflexivity].
  erewrite bind_ret; [| reflexivity].
  rewrite Ht.
  erewrite bind_ret; [| reflexivity].
  cbv beta. unfold h at 1. rewrite last_turn_snoc. cbv iota beta.
  change (String.eqb thinking thinking) with true. cbv iota.
  set (w0 := with_session None [] _).
  change (with_screen _ _) with (with_session (Some h) (draw_turns h) w0).
  pose proof (blind_get_response user_message e w0 (Some h) (draw_turns h)) as Hb.
  unfold result_of, world_of in Hb.
  destruct (get_response user_message e w0) as [[reply | x] w'];
    simpl in Hb.
  - erewrite bind_ret; [| exact Hb].
    erewrite bind_ret; [| reflexivity].
    unfold h. rewrite set_last_turn_snoc. reflexivity.
  - erewrite bind_raise; [| exact Hb]. reflexivity.
Qed.

End Script.
Import Script.

(** ** AppointmentStore *)

Module AppointmentStore.

(** Unfolds the monad and the library calls in a goal. *)
Ltac run_py :=
  cbv [save_to_json_try load_appointments os_path_exists open_read json_load
       open_write json_dump Lib.append print bind ret raise modify ask gets
       try_except with_fs_op with_file with_line
       appointments_json fs_trace stdout posts agent_runs history screen
       disk_now open_read_fault open_write_fault write_fault stdout_fault
       result_of world_of fst snd].

(** [save_to_json] is its [try] block, with a raise turned into a call of
    [print]; it raises only what that [print] raises. *)
Lemma save_to_json_run (e : env) (w : world) (a : appointment) :
  save_to_json (a_patient a) (a_doctor a) (a_date a) (a_time a) e w =
  match save_to_json_try (record_of a) e w with
  | (Ret u, w') => (Ret u, w')
  | (Raise x, w') =>
      (match stdout_fault (disk_now e) with
       | Some y => Raise y
       | None => Ret tt
       end,
       with_line ("JSON save error: " ++ exn_str x) w')
  end.
Proof.
  unfold save_to_json, try_except, print, bind, modify, ask, ret, raise.
  fold (record_of a).
  destruct (save_to_json_try (record_of a) e w) as [[u | x] w']; [reflexivity|].
  destruct (stdout_fault (disk_now e)); reflexivity.
Qed.

(** [confirm_patient] returns a string after [save_to_json]: the
    confirmation when it returned, the failure string on what it raised. *)
Lemma recordAppointment_run (e : env) (w : world) (a : appointment) :
  recordAppointment a e w =
  (match result_of (save_to_json (a_patient a) (a_doctor a) (a_date a) (a_time a) e w) with
   | Ret _ => Ret confirmation
   | Raise y => Ret (failed_to_notify ++ exn_str y)
   end,
   world_of (save_to_json (a_patient a) (a_doctor a) (a_date a) (a_time a) e w)).
Proof.
  unfold recordAppointment, confirm_patient, try_except, bind, result_of, world_of.
  destruct (save_to_json (a_patient a) (a_doctor a) (a_date a) (a_time a) e w)
    as [[u | y] w']; reflexivity.
Qed.

Lemma recordAppointment_world (e : env) (w : world) (a : appointment) :
  world_of (recordAppointment a e w)
  = world_of (save_to_json (a_patient a) (a_doctor a) (a_date a) (a_time a) e w).
Proof. now rewrite recordAppointment_run. Qed.

(** The string a call returns: the confirmation, unless the save failed
    and the [print] of its failure raised too. *)
Lemma recordAppointment_result (e : env) (w : world) (a : appointment) :
  result_of (recordAppointment a e w)
  = if persists e a w then Ret confirmation
    else match stdout_fault (disk_now e) with
         | None => Ret confirmation
         | Some y => Ret (failed_to_notify ++ exn_str y)
         end.
Proof.
  rewrite recordAppointment_run. unfold result_of at 1. simpl fst.
  rewrite save_to_json_run. unfold persists, result_of.
  destruct (save_to_json_try (record_of a) e w) as [[u | x] w']; simpl; [reflexivity|].
  destruct (stdout_fault (disk_now e)); reflexivity.
Qed.

(** A successful call found a collection and left it one record longer. *)
Lemma persists_run (e : env) (w : world) (a : appointment) :
  persists e a w = true ->
  exists xs,
    stored w = Some xs /\
    save_to_json_try (record_of a) e w = (Ret tt, saved xs a w).
Proof.
  unfold persists, stored, saved.
  destruct w as [f tr out ps ar h sc].
  destruct e as [n [rf owf wf so] l].
  destruct f as [| [lay v | why | lay v why]];
    [| destruct v | |];
    destruct rf, owf, wf as [[y why'] |]; run_py; try discriminate;
    intros _; eexists; (split; [reflexivity|]);
    cbv [read_modify_write]; rewrite <- ?app_assoc; reflexivity.
Qed.

(** A failed call raised inside the [try] block. It left the file as it
    was, unless the failure is the write itself: then the file holds the
    beginning of the text of the new array, which does not decode. It
    changed nothing but the file and the trace. *)
Lemma fails_run (e : env) (w : world) (a : appointment) :
  persists e a w = false ->
  exists x w1,
    save_to_json_try (record_of a) e w = (Raise x, w1) /\
    (appointments_json w1 = appointments_json w \/
     exists xs why,
       stored w = Some xs /\
       open_write_fault (disk_now e) = None /\
       write_fault (disk_now e) = Some (x, why) /\
       appointments_json w1
         = Present (PartOf (Indented 2) (PList (xs ++ [record_of a])) why)) /\
    stdout w1 = stdout w /\ posts w1 = posts w /\
    agent_runs w1 = agent_runs w /\ history w1 = history w /\
    screen w1 = screen w.
Proof.
  unfold persists, stored.
  destruct w as [f tr out ps ar h sc].
  destruct e as [n [rf owf wf so] l].
  destruct f as [| [lay v | why | lay v why]];
    [| destruct v | |];
    destruct rf, owf, wf as [[y why'] |]; run_py; try discriminate;
    intros _; do 2 eexists; (split; [reflexivity|]);
    (split; [first [ left; reflexivity
                   | right; do 2 eexists; repeat split; reflexivity ] |]);
    repeat split.
Qed.

Example first_booking :
  recordAppointment ali healthy initial_world
  = (Ret "✅ Patient notified via WhatsApp (via webhook confirmation).",
     World
       (Present (JsonText (Indented 2)
          (PList [PDict [("patient", PStr "Ali Raza"); ("doctor", PStr "Dr. Khan");
                         ("date", PStr "Monday"); ("time", PStr "11:00 AM")]])))
       [FsExists; FsOpenWrite;
        FsJsonDump
          (PList [PDict [("patient", PStr "Ali Raza"); ("doctor", PStr "Dr. Khan");
                         ("date", PStr "Monday"); ("time", PStr "11:00 AM")]]) 2]
       [] [] [] None []).
Proof. reflexivity. Qed.

Example booking_in_read_only_directory :
  recordAppointment ali read_only initial_world
  = (Ret "✅ Patient notified via WhatsApp (via webhook confirmation).",
     World Absent [FsExists; FsOpenWrite]
       ["JSON save error: [Errno 13] Permission denied: 'appointments.json'"]
       [] [] None []).
Proof. reflexivity. Qed.

(** A write that fails part way loses what was stored, and the bookings
    that follow cannot be stored either; all three calls return the
    confirmation. *)
Example booking_on_full_disk :
  let w := record_all [(healthy, ali); (full_disk, sara); (healthy, sara)] initial_world in
  appointments_json w
  = Present (PartOf (Indented 2) (PList [record_of ali; record_of sara])
       "Expecting property name enclosed in double quotes: line 2 column 4 (char 5)") /\
  stdout w
  = ["JSON save error: [Errno 28] No space left on device";
     "JSON save error: Expecting property name enclosed in double quotes: line 2 column 4 (char 5)"].
Proof. split; reflexivity. Qed.

(** When the failure cannot be printed either, the call returns the string
    of line 107, with the text of what [print] raised. *)
Example booking_in_read_only_directory_with_closed_output :
  recordAppointment ali read_only_and_mute initial_world
  = (Ret "❌ Failed to notify patient: [Errno 32] Broken pipe",
     World Absent [FsExists; FsOpenWrite]
       ["JSON save error: [Errno 13] Permission denied: 'appointments.json'"]
       [] [] None []).
Proof. reflexivity. Qed.

Lemma stored_saved (xs : list pyobj) (a : appointment) (w : world) :
  stored (saved xs a w) = Some (xs ++ [record_of a])%list.
Proof. reflexivity. Qed.

Lemma recordAppointment_persisted (e : env) (w : world) (a : appointment)
    (xs : list pyobj) :
  persists e a w = true -> stored w = Some xs ->
  world_of (recordAppointment a e w) = saved xs a w.
Proof.
  intros Hp Hs. rewrite recordAppointment_world, save_to_json_run.
  destruct (persists_run e w a Hp) as (ys & Hys & Hrun).
  rewrite Hrun. simpl. congruence.
Qed.

(** What a failed call leaves: the error given to [print], the file as it
    was or cut short by the failed write. *)
Lemma recordAppointment_failed (e : env) (w : world) (a : appointment) :
  persists e a w = false ->
  exists x w1,
    save_to_json_try (record_of a) e w = (Raise x, w1) /\
    world_of (recordAppointment a e w)
      = with_line ("JSON save error: " ++ exn_str x) w1 /\
    (appointments_json w1 = appointments_json w \/
     cut_short e w a (appointments_json w1)) /\
    stdout w1 = stdout w.
Proof.
  intros Hp.
  destruct (fails_run e w a Hp) as (x & w1 & Hrun & Hfile & Hout & _).
  exists x, w1. split; [exact Hrun|]. split; [|split; [|exact Hout]].
  - rewrite recordAppointment_world, save_to_json_run, Hrun. reflexivity.
  - destruct Hfile as [Hsame | (xs & why & Hs & Ho & Hw & Hf)]; [now left|].
    right. now exists xs, x, why.
Qed.

(** A file cut short holds no collection. *)
Lemma cut_short_stores_nothing (e : env) (w w1 : world) (a : appointment) :
  cut_short e w a (appointments_json w1) -> stored w1 = None.
Proof.
  intros (xs & x & why & _ & _ & _ & Hf). unfold stored. now rewrite Hf.
Qed.

(** A sequence of successful calls appends its records in order. *)
Lemma record_all_persisted (calls : list (env * appointment)) :
  forall (w : world) (xs : list pyobj),
    stored w = Some xs -> all_persist calls w = true ->
    stored (record_all calls w)
      = Some (xs ++ map (fun c => record_of (snd c)) calls)%list.
Proof.
  induction calls as [| [e a] rest IH]; intros w xs Hs Hall; simpl in *.
  - now rewrite app_nil_r.
  - apply andb_prop in Hall. destruct Hall as [Hp Hrest].
    rewrite (recordAppointment_persisted e w a xs Hp Hs) in *.
    rewrite (IH _ _ (stored_saved xs a w) Hrest).
    now rewrite <- app_assoc.
Qed.

Lemma record_fields_record_of (a : appointment) :
  record_fields (record_of a) = Some a.
Proof. destruct a; reflexivity. Qed.

(** Reading the collection back, on a disk that lets the file be read. *)
Lemma load_stored (e : env) (w : world) (xs : list pyobj) :
  stored w = Some xs -> open_read_fault (disk_now e) = None ->
  result_of (load_appointments e w) = Ret (PList xs).
Proof.
  unfold stored.
  destruct w as [f tr out ps ar h sc].
  destruct e as [n [rf owf wf so] l]. simpl.
  intros Hs Hr. subst rf.
  destruct f as [| [lay [] | why | lay v why]]; try discriminate;
    injection Hs as <-; reflexivity.
Qed.

(** The tools other than [confirm_patient] leave the file alone. *)
Lemma get_doctors_keeps_world (e : env) (w : world) :
  world_of (get_doctors e w) = w.
Proof. reflexivity. Qed.

Lemma send_doctor_request_keeps_file (e : env) (w : world)
    (patient_name doctor_name date time : string) :
  appointments_json (world_of (send_doctor_request patient_name doctor_name date time e w))
  = appointments_json w.
Proof.
  unfold world_of.
  rewrite NotificationClient.send_doctor_request_run. reflexivity.
Qed.

(** A run of the agent that never calls [confirm_patient] leaves the file
    alone. *)
Lemma run_plan_keeps_file (p : agent_plan) :
  confirm_free p ->
  forall e w, appointments_json (world_of (run_plan p e w)) = appointments_json w.
Proof.
  induction 1 as [s | x | k Hk IH | pn dn dt t k Hk IH]; intros e w.
  - reflexivity.
  - reflexivity.
  - simpl. unfold bind, try_except. simpl. apply IH.
  - simpl. unfold bind, try_except.
    rewrite NotificationClient.send_doctor_request_run. rewrite IH.
    reflexivity.
Qed.

(** A run of the script changes the file only through a call of
    [confirm_patient] by the agent. *)
Lemma script_keeps_file (e : env) (w : world) (input : option string) :
  (forall user_input, confirm_free (llm e user_input)) ->
  appointments_json (world_of (script input e w)) = appointments_json w.
Proof.
  intros Hfree.
  destruct (truthy input) as [text |] eqn:Ht.
  { now rewrite (script_submit e w input text Ht). }
  destruct (last_turn (turns w)) as [[u a] |] eqn:El.
  - destruct (last_turn_inv _ _ El) as (earlier & Heq).
    destruct (String.eqb a thinking) eqn:Ea.
    + apply String.eqb_eq in Ea. subst a.
      rewrite (script_answer e w input earlier u Ht Heq).
      assert (Hk : appointments_json
                     (world_of (get_response u e (with_session None [] w)))
                   = appointments_json w).
      { unfold get_response, Runner_run, bind, modify, ask, ret, world_of. simpl.
        pose proof (run_plan_keeps_file (llm e u) (Hfree u) e
                      (with_agent_run u (with_session None [] w))) as Hp.
        unfold world_of in Hp.
        destruct (run_plan (llm e u) e (with_agent_run u (with_session None [] w)))
          as [[r | x] w1]; exact Hp. }
      unfold world_of in *.
      destruct (get_response u e (with_session None [] w)) as [[reply | x] w'];
        exact Hk.
    + rewrite (script_idle e w input Ht); [reflexivity|].
      rewrite El. exact Ea.
  - rewrite (script_idle e w input Ht); [reflexivity|]. now rewrite El.
Qed.

Lemma recordAppointment_keeps_records_only (e : env) (w : world) (a : appointment) :
  holds_records_only w ->
  holds_records_only (world_of (recordAppointment a e w)).
Proof.
  intros Hw. destruct (persists e a w) eqn:Hp.
  - destruct (persists_run e w a Hp) as (xs & Hs & _).
    rewrite (recordAppointment_persisted e w a xs Hp Hs).
    intros ys Hys. rewrite stored_saved in Hys. injection Hys as <-.
    apply Forall_app. split; [now apply Hw|].
    constructor; [now exists a | constructor].
  - destruct (recordAppointment_failed e w a Hp) as (x & w1 & _ & Hw' & Hfile & _).
    rewrite Hw'. intros ys.
    change (stored (with_line ("JSON save error: " ++ exn_str x) w1))
      with (stored w1).
    destruct Hfile as [Hsame | Hcut].
    + unfold stored. rewrite Hsame. apply Hw.
    + now rewrite (cut_short_stores_nothing e w w1 a Hcut).
Qed.

Lemma record_all_keeps_records_only (calls : list (env * appointment)) :
  forall w, holds_records_only w -> holds_records_only (record_all calls w).
Proof.
  induction calls as [| [e a] rest IH]; intros w Hw; simpl; [exact Hw|].
  apply IH. now apply recordAppointment_keeps_records_only.
Qed.

(** C3. From a world that stores a collection [xs] (the array in the file,
    or the empty collection when there is no file), any sequence of
    successful calls of [recordAppointment] leaves the collection [xs]
    followed by the records of the calls in order: its length is the
    initial length plus the number of calls and every record stored before
    is still at its place, unmodified. The directory lookup leaves the
    whole world as it was, [send_doctor_request] leaves the file as it was,
    and so do every run of the agent and every run of the script in which
    the model does not call [confirm_patient]. *)
Theorem store_is_append_only :
  (forall (calls : list (env * appointment)) (w : world) (xs : list pyobj),
     stored w = Some xs ->
     all_persist calls w = true ->
     exists ys,
       stored (record_all calls w) = Some ys /\
       length ys = (length xs + length calls)%nat /\
       ys = (xs ++ map (fun c => record_of (snd c)) calls)%list /\
       (forall i x, nth_error xs i = Some x -> nth_error ys i = Some x)) /\
  (forall e w, world_of (get_doctors e w) = w) /\
  (forall e w patientName doctorName date time,
     appointments_json
       (world_of (send_doctor_request patientName doctorName date time e w))
     = appointments_json w) /\
  (forall p, confirm_free p ->
     forall e w, appointments_json (world_of (run_plan p e w)) = appointments_json w) /\
  (forall e w input,
     (forall user_input, confirm_free (llm e user_input)) ->
     appointments_json (world_of (script input e w)) = appointments_json w).
Proof.
  split; [|split; [|split; [|split]]].
  - intros calls w xs Hs Hall.
    eexists. split; [exact (record_all_persisted calls w xs Hs Hall)|].
    split; [|split].
    + now rewrite length_app, length_map.
    + reflexivity.
    + intros i x Hi. rewrite nth_error_app1; [exact Hi|].
      apply nth_error_Some. congruence.
  - exact get_doctors_keeps_world.
  - exact send_doctor_request_keeps_file.
  - exact run_plan_keeps_file.
  - exact script_keeps_file.
Qed.

(** Two bookings on a healthy disk, with no file to start from. *)
Lemma store_is_append_only_witness :
  exists ys,
    stored (record_all two_bookings initial_world) = Some ys /\
    length ys = 2%nat /\
    ys = [record_of ali; record_of sara] /\
    (forall i x, nth_error (@nil pyobj) i = Some x -> nth_error ys i = Some x).
Proof.
  exact (proj1 store_is_append_only two_bookings initial_world [] eq_refl eq_refl).
Defined.

(** C4. After any sequence of successful calls of [recordAppointment],
    reading the collection back (as line 113 does, on a disk that lets the
    file be read) returns what was stored before followed by one object per
    call, in the order of the calls, and the fields patient, doctor, date
    and time of each object are the arguments of its call. *)
Theorem written_records_read_back :
  forall (calls : list (env * appointment)) (w : world) (xs : list pyobj) (e : env),
    stored w = Some xs ->
    all_persist calls w = true ->
    open_read_fault (disk_now e) = None ->
    exists ys,
      result_of (load_appointments e (record_all calls w)) = Ret (PList (xs ++ ys)) /\
      map record_fields ys = map (fun c => Some (snd c)) calls.
Proof.
  intros calls w xs e Hs Hall Hread.
  exists (map (fun c => record_of (snd c)) calls). split.
  - apply load_stored; [|exact Hread].
    now apply record_all_persisted.
  - rewrite map_map. apply map_ext. intros c. apply record_fields_record_of.
Qed.

Lemma written_records_read_back_witness :
  exists ys,
    result_of (load_appointments healthy (record_all two_bookings initial_world))
      = Ret (PList ([] ++ ys)) /\
    map record_fields ys = [Some ali; Some sara].
Proof.
  exact (written_records_read_back two_bookings initial_world [] healthy
           eq_refl eq_refl eq_refl).
Defined.

(** C7. Take a file that, if it holds an array, holds records only (no
    file at all, for one). After any earlier calls, a successful call of
    [recordAppointment] found a collection [xs] of records and leaves the
    file as one JSON array laid out with an indent of 2, whose elements are
    the records [xs] followed by the new one, each of the shape patient,
    doctor, date, time. The call went through the whole file: it looked
    for it, read and decoded it when it was there, opened it for writing
    (which empties it) and dumped the whole updated collection. *)
Theorem file_is_indented_array_of_records :
  forall (w0 : world) (calls : list (env * appointment)) (e : env) (a : appointment),
    holds_records_only w0 ->
    persists e a (record_all calls w0) = true ->
    let w := record_all calls w0 in
    let w' := world_of (recordAppointment a e w) in
    exists xs,
      stored w = Some xs /\
      appointments_json w'
        = Present (JsonText (Indented 2) (PList (xs ++ [record_of a]))) /\
      Forall is_record (xs ++ [record_of a]) /\
      fs_trace w'
        = (fs_trace w ++ read_modify_write (appointments_json w) (xs ++ [record_of a]))%list.
Proof.
  intros w0 calls e a H0 Hp w w'.
  destruct (persists_run e w a Hp) as (xs & Hs & _).
  exists xs. split; [exact Hs|].
  unfold w'. rewrite (recordAppointment_persisted e w a xs Hp Hs).
  split; [reflexivity|]. split; [|reflexivity].
  apply Forall_app. split.
  - exact (record_all_keeps_records_only calls w0 H0 xs Hs).
  - constructor; [now exists a | constructor].
Qed.

(** A second booking, after a first one, with no file to start from. *)
Lemma file_is_indented_array_of_records_witness :
  exists xs,
    stored (record_all [(healthy, ali)] initial_world) = Some xs /\
    appointments_json
      (world_of (recordAppointment sara healthy (record_all [(healthy, ali)] initial_world)))
      = Present (JsonText (Indented 2) (PList (xs ++ [record_of sara]))) /\
    Forall is_record (xs ++ [record_of sara]) /\
    fs_trace
      (world_of (recordAppointment sara healthy (record_all [(healthy, ali)] initial_world)))
      = (fs_trace (record_all [(healthy, ali)] initial_world)
         ++ read_modify_write
              (appointments_json (record_all [(healthy, ali)] initial_world))
              (xs ++ [record_of sara]))%list.
Proof.
  apply (file_is_indented_array_of_records initial_world [(healthy, ali)] healthy sara).
  - intros xs Hxs. injection Hxs as <-. constructor.
  - reflexivity.
Defined.

(** C2, as the claim states it, fails in a directory that cannot be
    written: the write fails, and the call still returns the confirmation,
    which is no failure outcome. *)
Lemma persist_failure_is_not_reported :
  persists read_only ali initial_world = false /\
  result_of (recordAppointment ali read_only initial_world) = Ret confirmation /\
  ~ reports_persistence read_only initial_world ali.
Proof.
  split; [reflexivity|]. split; [reflexivity|].
  intros [_ Hfail].
  destruct (Hfail eq_refl) as (message & Hret & Hmark).
  vm_compute in Hret. injection Hret as <-.
  vm_compute in Hmark. discriminate.
Qed.

(** C2, amended. Every call of [recordAppointment] returns a string and
    never raises. When the record was persisted the string is the
    confirmation, the stored collection gained the record and [print] was
    not called. When the local write failed, the failure is not reported to
    the caller: it is given to [print], as JSON save error and the text of
    the exception, the file is as it was or cut short by the failed write,
    and the string is still the confirmation; only when that [print] raises
    too is it the failure string of line 107, with the text of what [print]
    raised. *)
Theorem recordAppointment_confirms_and_logs :
  forall (e : env) (w : world) (a : appointment),
    let w' := world_of (recordAppointment a e w) in
    (exists s, result_of (recordAppointment a e w) = Ret s) /\
    success_marked confirmation = true /\
    failure_marked confirmation = false /\
    (persists e a w = true ->
       result_of (recordAppointment a e w) = Ret confirmation /\
       exists xs,
         stored w = Some xs /\
         stored w' = Some (xs ++ [record_of a])%list /\
         stdout w' = stdout w) /\
    (persists e a w = false ->
       (exists x,
          stdout w' = (stdout w ++ [("JSON save error: " ++ exn_str x)%string])%list) /\
       (appointments_json w' = appointments_json w \/
        cut_short e w a (appointments_json w')) /\
       (stdout_fault (disk_now e) = None ->
          result_of (recordAppointment a e w) = Ret confirmation) /\
       (forall y, stdout_fault (disk_now e) = Some y ->
          result_of (recordAppointment a e w)
          = Ret (failed_to_notify ++ exn_str y))).
Proof.
  intros e w a w'.
  pose proof (recordAppointment_result e w a) as Hres.
  split.
  { rewrite Hres. destruct (persists e a w); [now eexists|].
    destruct (stdout_fault (disk_now e)); now eexists. }
  split; [reflexivity|]. split; [reflexivity|]. split.
  - intros Hp. rewrite Hres, Hp. split; [reflexivity|].
    destruct (persists_run e w a Hp) as (xs & Hs & _).
    exists xs. unfold w'.
    rewrite (recordAppointment_persisted e w a xs Hp Hs).
    repeat split; assumption || reflexivity.
  - intros Hp. rewrite Hres, Hp.
    destruct (recordAppointment_failed e w a Hp) as (x & w1 & _ & Hw' & Hfile & Hout).
    split; [|split; [|split]].
    + exists x. unfold w'. rewrite Hw'. simpl. now rewrite Hout.
    + unfold w'. rewrite Hw'. exact Hfile.
    + now intros ->.
    + now intros y ->.
Qed.

(** C10, as the claim states it, fails when the save fails and standard
    output cannot be written either: the [print] of line 118 raises inside
    the [try] of [confirm_patient], and the call returns the string of
    line 107. *)
Lemma failed_print_reaches_the_failure_branch :
  result_of (confirm_patient "Ali Raza" "Dr. Khan" "Monday" "11:00 AM"
               read_only_and_mute initial_world)
  = Ret "❌ Failed to notify patient: [Errno 32] Broken pipe" /\
  result_of (confirm_patient "Ali Raza" "Dr. Khan" "Monday" "11:00 AM"
               read_only_and_mute initial_world)
  <> Ret "✅ Patient notified via WhatsApp (via webhook confirmation).".
Proof. split; [reflexivity | discriminate]. Qed.

(** C10, amended. For every input, environment and world,
    [confirm_patient] returns a string and never raises. [save_to_json]
    catches every exception of its [try] block and gives it to [print]; the
    record is then not stored (the file is as it was, or cut short by the
    failed write). As long as that [print] returns, [save_to_json] returns
    and [confirm_patient] returns the fixed confirmation of line 105,
    whatever failed: no string of line 107, and neither the returned string
    nor the session history nor the screen tells a failed call from a
    successful one. The branch of line 107 is taken exactly when the save
    fails and the [print] of line 118 raises too; its message is then the
    text of what [print] raised, not of the persistence failure. *)
Theorem confirm_patient_fails_only_with_print :
  forall (e : env) (w : world) (patient_name doctor_name date time : string),
    let a := Appointment patient_name doctor_name date time in
    let r := confirm_patient patient_name doctor_name date time e w in
    (exists s, result_of r = Ret s) /\
    (persists e a w = true \/ stdout_fault (disk_now e) = None ->
       result_of r
         = Ret "✅ Patient notified via WhatsApp (via webhook confirmation)." /\
       (forall message,
          result_of r <> Ret ("❌ Failed to notify patient: " ++ message)) /\
       exists w1, save_to_json patient_name doctor_name date time e w = (Ret tt, w1)) /\
    (forall y,
       persists e a w = false -> stdout_fault (disk_now e) = Some y ->
       result_of r = Ret ("❌ Failed to notify patient: " ++ exn_str y) /\
       result_of (save_to_json patient_name doctor_name date time e w) = Raise y) /\
    (forall x w1,
       save_to_json_try (record_of a) e w = (Raise x, w1) ->
       world_of r = with_line ("JSON save error: " ++ exn_str x) w1 /\
       (appointments_json (world_of r) = appointments_json w \/
        cut_short e w a (appointments_json (world_of r)))) /\
    (forall e2 w2,
       stdout_fault (disk_now e) = None ->
       stdout_fault (disk_now e2) = None ->
       result_of (confirm_patient patient_name doctor_name date time e2 w2)
       = result_of r) /\
    history (world_of r) = history w /\
    screen (world_of r) = screen w.
Proof.
  intros e w patient_name doctor_name date time a r.
  assert (Hres : forall e2 w2,
             result_of (confirm_patient patient_name doctor_name date time e2 w2)
             = if persists e2 a w2 then Ret confirmation
               else match stdout_fault (disk_now e2) with
                    | None => Ret confirmation
                    | Some y => Ret (failed_to_notify ++ exn_str y)
                    end).
  { intros e2 w2. exact (recordAppointment_result e2 w2 a). }
  assert (Hw : world_of r
               = world_of (save_to_json patient_name doctor_name date time e w)).
  { exact (recordAppointment_world e w a). }
  pose proof (save_to_json_run e w a) as Hsave. simpl in Hsave.
  unfold r.
  split; [|split; [|split; [|split; [|split]]]].
  - rewrite Hres. destruct (persists e a w); [now eexists|].
    destruct (stdout_fault (disk_now e)); now eexists.
  - intros Hok.
    assert (Hc : result_of (confirm_patient patient_name doctor_name date time e w)
                 = Ret confirmation).
    { rewrite Hres. destruct (persists e a w); [reflexivity|].
      destruct Hok as [Hp | ->]; [discriminate | reflexivity]. }
    split; [exact Hc|]. split.
    + intros message. rewrite Hc. discriminate.
    + rewrite Hsave. unfold persists, result_of in Hok.
      destruct (save_to_json_try (record_of a) e w) as [[[] | x] w1];
        [now eexists|].
      destruct Hok as [Hp | ->]; [discriminate | now eexists].
  - intros y Hp Hy. rewrite Hres, Hp, Hy. split; [reflexivity|].
    rewrite Hsave. unfold persists, result_of in Hp.
    destruct (save_to_json_try (record_of a) e w) as [[[] | x] w1];
      [discriminate|].
    now rewrite Hy.
  - intros x w1 Htry. fold r. rewrite Hw, Hsave, Htry.
    unfold world_of at 1 2 3. simpl snd. split; [reflexivity|].
    assert (Hp : persists e a w = false).
    { unfold persists, result_of. now rewrite Htry. }
    destruct (recordAppointment_failed e w a Hp) as (x' & w1' & Htry' & _ & Hfile & _).
    rewrite Htry in Htry'. injection Htry' as _ <-. exact Hfile.
  - intros e2 w2 H1 H2. rewrite !Hres, H1, H2.
    destruct (persists e2 a w2), (persists e a w); reflexivity.
  - fold r. rewrite Hw, Hsave. destruct (persists e a w) eqn:Hp.
    + destruct (persists_run e w a Hp) as (xs & _ & ->). split; reflexivity.
    + destruct (fails_run e w a Hp) as (x & w1 & -> & _ & _ & _ & _ & Hh & Hs).
      split; assumption.
Qed.

End AppointmentStore.

(** ** ChatSession *)

Module ChatSession.

(** C9. In every world and environment, a run of the script calls the
    agent only when no message was submitted and the last turn is pending,
    and then once, with the user message of that turn as its whole input:
    the run is the run of [get_response] on that message in a world
    without session state. So two sessions whose histories end in the same
    pending turn get the same outcome, the same last turn and the same
    effects whatever their earlier turns; a run that opens a turn or finds
    nothing pending does not call the agent. *)
Theorem agent_is_given_the_latest_message_only :
  forall (e : env) (w : world) (input : option string),
    (forall earlier user_message,
       truthy input = None ->
       turns w = (earlier ++ [(user_message, thinking)])%list ->
       agent_runs (world_of (script input e w))
         = (agent_runs w ++ [user_message])%list /\
       script input e w
         = match get_response user_message e (with_session None [] w) with
           | (Ret reply, w') =>
               (Ret Rerun,
                with_session (Some (earlier ++ [(user_message, reply)])%list)
                             (draw_turns (turns w)) w')
           | (Raise x, w') =>
               (Raise x, with_session (Some (turns w)) (draw_turns (turns w)) w')
           end) /\
    (truthy input <> None \/
     match last_turn (turns w) with
     | Some t => pending t = false
     | None => True
     end ->
     agent_runs (world_of (script input e w)) = agent_runs w) /\
    (forall earlier1 earlier2 user_message,
       truthy input = None ->
       let w1 := with_session (Some (earlier1 ++ [(user_message, thinking)])%list)
                              (screen w) w in
       let w2 := with_session (Some (earlier2 ++ [(user_message, thinking)])%list)
                              (screen w) w in
       result_of (script input e w1) = result_of (script input e w2) /\
       last_turn (turns (world_of (script input e w1)))
         = last_turn (turns (world_of (script input e w2))) /\
       agent_runs (world_of (script input e w1))
         = agent_runs (world_of (script input e w2)) /\
       posts (world_of (script input e w1))
         = posts (world_of (script input e w2)) /\
       appointments_json (world_of (script input e w1))
         = appointments_json (world_of (script input e w2))).
Proof.
  intros e w input. split; [|split].
  - intros earlier user_message Ht Hh.
    pose proof (script_answer e w input earlier user_message Ht Hh) as Hrun.
    split; [| exact Hrun].
    rewrite Hrun.
    pose proof (get_response_logs_input e (with_session None [] w) user_message) as Hlog.
    unfold world_of in *.
    destruct (get_response user_message e (with_session None [] w)) as [[reply | x] w'];
      simpl in *; exact Hlog.
  - intros [Ht | Hl].
    + destruct (truthy input) as [text |] eqn:E; [| congruence].
      now rewrite (script_submit e w input text E).
    + destruct (truthy input) as [text |] eqn:E.
      * now rewrite (script_submit e w input text E).
      * now rewrite (script_idle e w input E Hl).
  - intros earlier1 earlier2 user_message Ht w1 w2.
    rewrite (script_answer e w1 input earlier1 user_message Ht eq_refl).
    rewrite (script_answer e w2 input earlier2 user_message Ht eq_refl).
    change (with_session None [] w1) with (with_session None [] w).
    change (with_session None [] w2) with (with_session None [] w).
    destruct (get_response user_message e (with_session None [] w)) as [[reply | x] w'];
      unfold result_of, world_of, turns; simpl;
      rewrite ?last_turn_snoc; repeat split.
Qed.

(** *** The session between runs *)








(** C8, on the code. The user submits a message while the model is out of
    reach: the run that is to answer raises, [get_response] catches
    nothing, and the turn stays pending. The next message opens a second
    pending turn, so two turns are pending, the first of them not the last;
    the second is then answered while the first keeps its placeholder,
    whatever happens later. *)
Theorem failed_reply_leaves_two_pending_turns :
  let after_failure := run_session (firstn 2 session_with_failed_reply) new_session in
  let after_second := run_session (firstn 3 session_with_failed_reply) new_session in
  let at_rest := run_session session_with_failed_reply new_session in
  history (fst after_failure)
    = Some [("Is Dr. Khan free on Monday?", "thinking...")] /\
  snd after_failure = Crashed (Exn "APIConnectionError" "Connection error.") /\
  history (fst after_second)
    = Some [("Is Dr. Khan free on Monday?", "thinking...");
            ("Hello?", "thinking...")] /\
  pending_count (turns (fst after_second)) = 2%nat /\
  only_last_may_be_pending (turns (fst after_second)) = false /\
  history (fst at_rest)
    = Some [("Is Dr. Khan free on Monday?", "thinking...");
            ("Hello?", "Hello?")] /\
  snd at_rest = Ended /\
  only_last_may_be_pending (turns (fst at_rest)) = false.
Proof. vm_compute. repeat split. Qed.

End ChatSession.

(** ** AppointmentStore: failures *)

Module StoreFailures.

Import AppointmentStore.

(** The [try] block of [save_to_json] ends as its first failure says, and
    leaves the file untouched unless the failure is the write itself. *)
Lemma save_to_json_try_first_failure (e : env) (w : world) (a : appointment) :
  result_of (save_to_json_try (record_of a) e w)
  = match first_failure e w with
    | Some x => Raise x
    | None => Ret tt
    end.
Proof.
  unfold first_failure, write_failure.
  destruct w as [f tr out ps ar h sc].
  destruct e as [n [rf owf wf so] l].
  destruct f as [| [lay v | why | lay v why]];
    [| destruct v | |];
    destruct rf, owf, wf as [[y why'] |]; reflexivity.
Qed.

Lemma persists_first_failure (e : env) (w : world) (a : appointment) :
  persists e a w = match first_failure e w with Some _ => false | None => true end.
Proof.
  unfold persists. rewrite save_to_json_try_first_failure.
  now destruct (first_failure e w).
Qed.

(** A file that holds no array makes every call fail and stays as it is. *)
Lemma broken_file_step (e : env) (w : world) (a : appointment) :
  stored w = None ->
  persists e a w = false /\
  appointments_json (world_of (recordAppointment a e w)) = appointments_json w.
Proof.
  unfold persists, stored.
  destruct w as [f tr out ps ar h sc].
  destruct e as [n [rf owf wf so] l].
  destruct f as [| [lay v | why | lay v why]];
    [| destruct v | |]; try discriminate;
    intros _; destruct rf, owf, wf as [[y why'] |], so; split; reflexivity.
Qed.

Lemma broken_file_stays (calls : list (env * appointment)) :
  forall w,
    stored w = None ->
    appointments_json (record_all calls w) = appointments_json w.
Proof.
  induction calls as [| [e a] rest IH]; intros w Hw; [reflexivity|].
  simpl. destruct (broken_file_step e w a Hw) as [_ Hfile].
  rewrite IH.
  - exact Hfile.
  - unfold stored in *. now rewrite Hfile.
Qed.

Lemma stored_of_file (w1 w2 : world) :
  appointments_json w1 = appointments_json w2 -> stored w1 = stored w2.
Proof. unfold stored. now intros ->. Qed.

(** What one call gives to [print]: nothing when it persists, one line
    when not. *)
Lemma recordAppointment_stdout (e : env) (w : world) (a : appointment) :
  stdout (world_of (recordAppointment a e w))
  = (stdout w ++
     match first_failure e w with
     | Some x => [("JSON save error: " ++ exn_str x)%string]
     | None => []
     end)%list.
Proof.
  pose proof (save_to_json_try_first_failure e w a) as Hff.
  pose proof (persists_first_failure e w a) as Hp.
  destruct (first_failure e w) as [x |].
  - destruct (recordAppointment_failed e w a Hp) as (x' & w1 & Hrun & -> & _ & Hout).
    unfold result_of in Hff. rewrite Hrun in Hff. simpl in Hff.
    injection Hff as ->. simpl. now rewrite Hout.
  - destruct (persists_run e w a Hp) as (xs & Hs & _).
    rewrite (recordAppointment_persisted e w a xs Hp Hs). simpl.
    now rewrite app_nil_r.
Qed.

Lemma stdout_counts_failed_calls (calls : list (env * appointment)) :
  forall w,
    length (stdout (record_all calls w))
    = (length (stdout w) + failed_calls calls w)%nat.
Proof.
  induction calls as [| [e a] rest IH]; intros w; simpl.
  - now rewrite Nat.add_0_r.
  - rewrite IH, recordAppointment_stdout, persists_first_failure, length_app.
    destruct (first_failure e w); simpl; now rewrite <- Nat.add_assoc.
Qed.

(** X1. A file that holds something else than a JSON array (a text that
    does not decode, an object, a number) is never written again: whatever
    the calls and the faults they meet, the file stays as it is, no record
    is persisted, and every call gives one line to [print]. *)
Theorem file_without_array_is_never_written :
  forall (calls : list (env * appointment)) (w : world),
    stored w = None ->
    appointments_json (record_all calls w) = appointments_json w /\
    persisted_records calls w = [] /\
    failed_calls calls w = length calls /\
    length (stdout (record_all calls w)) = (length (stdout w) + length calls)%nat.
Proof.
  intros calls w Hw.
  assert (Hacc : persisted_records calls w = [] /\ failed_calls calls w = length calls).
  { revert w Hw. induction calls as [| [e a] rest IH]; intros w Hw; [split; reflexivity|].
    simpl. destruct (broken_file_step e w a Hw) as [Hp Hfile]. rewrite Hp.
    assert (Hw' : stored (world_of (recordAppointment a e w)) = None).
    { now rewrite (stored_of_file _ w Hfile). }
    destruct (IH _ Hw') as [-> ->]. split; reflexivity. }
  destruct Hacc as [Hrec Hfail].
  split; [now apply broken_file_stays|].
  split; [exact Hrec|]. split; [exact Hfail|].
  now rewrite stdout_counts_failed_calls, Hfail.
Qed.

Lemma file_without_array_is_never_written_witness :
  appointments_json (record_all two_bookings object_in_file)
    = appointments_json object_in_file /\
  persisted_records two_bookings object_in_file = [] /\
  failed_calls two_bookings object_in_file = 2%nat /\
  length (stdout (record_all two_bookings object_in_file)) = 2%nat.
Proof.
  exact (file_without_array_is_never_written two_bookings object_in_file eq_refl).
Defined.

(** X2. The [try] block of [save_to_json] stops at the first failure in
    the order of its lines (the file that exists cannot be opened; it does
    not decode; what it decodes to is no list; the file cannot be opened
    for writing; the write fails), whatever the record, and the call of
    [confirm_patient] gives exactly that failure to [print]: JSON save
    error and the text of the exception. With no failure, [print] is not
    called. *)
Theorem save_reports_the_first_failure :
  forall (e : env) (w : world) (a : appointment),
    result_of (save_to_json_try (record_of a) e w)
    = match first_failure e w with
      | Some x => Raise x
      | None => Ret tt
      end /\
    stdout (world_of (recordAppointment a e w))
    = (stdout w ++
       match first_failure e w with
       | Some x => [("JSON save error: " ++ exn_str x)%string]
       | None => []
       end)%list.
Proof.
  intros e w a. split.
  - apply save_to_json_try_first_failure.
  - apply recordAppointment_stdout.
Qed.

(** X3. A call that does not persist its record leaves the file exactly as
    it was, except when the failure is the write itself: the file could be
    opened for writing, the write raised part way, and the file holds only
    the beginning of the text of the new array. That text does not decode,
    so the collection the file held is lost: reading it back raises. *)
Theorem records_are_lost_only_by_a_failed_write :
  forall (e : env) (w : world) (a : appointment),
    persists e a w = false ->
    let w' := world_of (recordAppointment a e w) in
    appointments_json w' = appointments_json w \/
    (exists xs x why,
       stored w = Some xs /\
       open_write_fault (disk_now e) = None /\
       write_fault (disk_now e) = Some (x, why) /\
       appointments_json w'
         = Present (PartOf (Indented 2) (PList (xs ++ [record_of a])) why) /\
       stored w' = None /\
       forall e2,
         open_read_fault (disk_now e2) = None ->
         result_of (load_appointments e2 w') = Raise (Exn "JSONDecodeError" why)).
Proof.
  intros e w a Hp w'.
  destruct (recordAppointment_failed e w a Hp) as (x & w1 & _ & Hw' & Hfile & _).
  assert (Hf : appointments_json w' = appointments_json w1).
  { unfold w'. now rewrite Hw'. }
  destruct Hfile as [Hsame | (xs & y & why & Hs & Ho & Hwf & Hcut)].
  - left. congruence.
  - right. exists xs, y, why.
    rewrite Hf. repeat split; try assumption.
    + unfold stored. now rewrite Hf, Hcut.
    + intros e2 Hr. rewrite <- Hf in Hcut.
      destruct w' as [f tr out ps ar h sc]. simpl in Hcut. subst f.
      destruct e2 as [n2 [rf2 owf2 wf2 so2] l2]. simpl in Hr. subst rf2.
      reflexivity.
Qed.

Lemma records_are_lost_only_by_a_failed_write_witness :
  let w := record_all [(healthy, ali)] initial_world in
  let w' := world_of (recordAppointment sara full_disk w) in
  appointments_json w' = appointments_json w \/
  (exists xs x why,
     stored w = Some xs /\
     open_write_fault (disk_now full_disk) = None /\
     write_fault (disk_now full_disk) = Some (x, why) /\
     appointments_json w'
       = Present (PartOf (Indented 2) (PList (xs ++ [record_of sara])) why) /\
     stored w' = None /\
     forall e2,
       open_read_fault (disk_now e2) = None ->
       result_of (load_appointments e2 w') = Raise (Exn "JSONDecodeError" why)).
Proof.
  exact (records_are_lost_only_by_a_failed_write full_disk
           (record_all [(healthy, ali)] initial_world) sara eq_refl).
Defined.

(** X4. Over any sequence of calls, failed ones included: if the file holds
    an array at the start and at the end, the array at the end is the one
    at the start followed by the records of the calls that persisted, in
    the order of the calls; the calls that failed left no trace in it. *)
Theorem store_holds_exactly_the_persisted_records :
  forall (calls : list (env * appointment)) (w : world) (xs ys : list pyobj),
    stored w = Some xs ->
    stored (record_all calls w) = Some ys ->
    ys = (xs ++ persisted_records calls w)%list.
Proof.
  induction calls as [| [e a] rest IH]; intros w xs ys Hs Hend; simpl in *.
  - rewrite app_nil_r. congruence.
  - destruct (persists e a w) eqn:Hp.
    + rewrite (recordAppointment_persisted e w a xs Hp Hs) in *.
      rewrite (IH _ _ ys (stored_saved xs a w) Hend).
      now rewrite <- app_assoc.
    + destruct (recordAppointment_failed e w a Hp) as (x & w1 & _ & Hw' & Hfile & _).
      assert (Hf : appointments_json (world_of (recordAppointment a e w))
                   = appointments_json w1) by now rewrite Hw'.
      destruct Hfile as [Hsame | Hcut].
      * apply (IH _ xs ys); [| exact Hend].
        rewrite <- Hs. apply stored_of_file. congruence.
      * assert (Hnone : stored (world_of (recordAppointment a e w)) = None).
        { rewrite (stored_of_file _ w1 Hf).
          exact (cut_short_stores_nothing e w w1 a Hcut). }
        pose proof (broken_file_stays rest _ Hnone) as Hstay.
        rewrite (stored_of_file _ _ Hstay), Hnone in Hend. discriminate.
Qed.

(** A booking, a booking that meets a read-only directory, a booking. *)
Lemma store_holds_exactly_the_persisted_records_witness :
  [record_of ali; record_of sara]
  = ([] ++ persisted_records
             [(healthy, ali); (read_only, sara); (healthy, sara)] initial_world)%list.
Proof.
  exact (store_holds_exactly_the_persisted_records
           [(healthy, ali); (read_only, sara); (healthy, sara)] initial_world
           [] [record_of ali; record_of sara] eq_refl eq_refl).
Defined.

(** X5. Over any sequence of calls, standard output gains exactly one line
    for each call that did not persist its record, and none for the
    others; as every call returns the confirmation, these lines are the
    only sign of a lost booking. *)
Theorem one_line_printed_per_lost_booking :
  forall (calls : list (env * appointment)) (w : world),
    length (stdout (record_all calls w))
    = (length (stdout w) + failed_calls calls w)%nat /\
    (length (persisted_records calls w) + failed_calls calls w)%nat = length calls.
Proof.
  intros calls w. split; [apply stdout_counts_failed_calls|].
  revert w. induction calls as [| [e a] rest IH]; intros w; [reflexivity|].
  simpl. rewrite length_app.
  specialize (IH (world_of (recordAppointment a e w))).
  destruct (persists e a w); simpl; lia.
Qed.

End StoreFailures.

(** ** How the tools compose *)

Module Tools.

(** *** Computations that go through an update of the world *)

Section Passes.

Context (u : world -> world).

Lemma passes_ret {A} (a : A) : passes u (ret a).
Proof. intros e w. reflexivity. Qed.

Lemma passes_raise {A} (x : exn) : passes u (@raise A x).
Proof. intros e w. reflexivity. Qed.

Lemma passes_ask : passes u ask.
Proof. intros e w. reflexivity. Qed.

Lemma passes_gets {A} (f : world -> A) :
  (forall w, f (u w) = f w) -> passes u (gets f).
Proof. intros Hf e w. unfold gets. now rewrite Hf. Qed.

Lemma passes_modify (f : world -> world) :
  (forall w, f (u w) = u (f w)) -> passes u (modify f).
Proof. intros Hf e w. unfold modify. now rewrite Hf. Qed.

Lemma passes_bind {A B} (m : M A) (k : A -> M B) :
  passes u m -> (forall a, passes u (k a)) -> passes u (bind m k).
Proof.
  intros Hm Hk e w. unfold bind. rewrite Hm.
  unfold result_of, world_of. destruct (m e w) as [[a | x] w1]; simpl.
  - apply Hk.
  - reflexivity.
Qed.

Lemma passes_try_except {A} (m : M A) (handler : exn -> M A) :
  passes u m -> (forall x, passes u (handler x)) -> passes u (try_except m handler).
Proof.
  intros Hm Hh e w. unfold try_except. rewrite Hm.
  unfold result_of, world_of. destruct (m e w) as [[a | x] w1]; simpl.
  - reflexivity.
  - apply Hh.
Qed.

End Passes.

(** Splits a computation into its library calls and checks each against
    the update. *)
Ltac passes :=
  repeat first
    [ apply passes_bind; [| intros ?]
    | apply passes_try_except; [| intros ?]
    | apply passes_ret
    | apply passes_raise
    | apply passes_ask
    | apply passes_gets; intros ?; reflexivity
    | apply passes_modify; intros ?; reflexivity
    | match goal with
      | |- passes _ (match ?x with _ => _ end) => destruct x
      | |- passes _ (if ?x then _ else _) => destruct x
      end ].

(** [confirm_patient] goes through a request sent. *)
Lemma confirm_patient_passes_post (r : http_request)
    (patient_name doctor_name date time : string) :
  passes (with_post r) (confirm_patient patient_name doctor_name date time).
Proof.
  unfold confirm_patient, save_to_json, save_to_json_try, load_appointments,
    os_path_exists, open_read, json_load, Lib.append, open_write, json_dump, print.
  passes.
Qed.

(** [confirm_patient] reads the files of the environment (the faults of
    [disk_now]: the file and standard output) and nothing else
    of it. *)
Lemma confirm_patient_reads_disk_only (e1 e2 : env) (w : world)
    (patient_name doctor_name date time : string) :
  disk_now e1 = disk_now e2 ->
  confirm_patient patient_name doctor_name date time e1 w
  = confirm_patient patient_name doctor_name date time e2 w.
Proof.
  destruct e1 as [n1 d1 l1], e2 as [n2 d2 l2]. simpl. intros <-.
  destruct w as [f tr out ps ar h sc].
  destruct d1 as [rf owf wf so].
  destruct f as [| [lay v | why | lay v why]];
    [| destruct v | |];
    destruct rf, owf, wf as [[y why'] |], so; reflexivity.
Qed.

(** X6. [confirm_patient] has nothing to do with the webhook: it sends no
    request, its outcome and the world it leaves are the same whatever the
    network (and the model) of the environment, given the same files, and
    the requests already sent, a failed notification among them, change
    neither its result nor what it stores. So a booking is confirmed and
    recorded whether or not the doctor was notified. *)
Theorem confirm_patient_ignores_the_webhook :
  forall (e1 e2 : env) (w : world) (r : http_request)
         (patient_name doctor_name date time : string),
    disk_now e1 = disk_now e2 ->
    confirm_patient patient_name doctor_name date time e1 w
      = confirm_patient patient_name doctor_name date time e2 w /\
    posts (world_of (confirm_patient patient_name doctor_name date time e1 w))
      = posts w /\
    confirm_patient patient_name doctor_name date time e1 (with_post r w)
      = (result_of (confirm_patient patient_name doctor_name date time e1 w),
         with_post r (world_of (confirm_patient patient_name doctor_name date time e1 w))).
Proof.
  intros e1 e2 w r patient_name doctor_name date time Hd.
  split; [now apply confirm_patient_reads_disk_only|]. split.
  - assert (K : keeps posts (confirm_patient patient_name doctor_name date time)).
    { unfold confirm_patient, save_to_json, save_to_json_try, load_appointments,
        os_path_exists, open_read, json_load, Lib.append, open_write, json_dump, print.
      keeps. }
    apply K.
  - apply confirm_patient_passes_post.
Qed.

Lemma confirm_patient_ignores_the_webhook_witness :
  confirm_patient "Ali Raza" "Dr. Khan" "Monday" "11:00 AM" healthy initial_world
    = confirm_patient "Ali Raza" "Dr. Khan" "Monday" "11:00 AM" failing_webhook initial_world /\
  posts (world_of (confirm_patient "Ali Raza" "Dr. Khan" "Monday" "11:00 AM"
                     healthy initial_world))
    = posts initial_world /\
  confirm_patient "Ali Raza" "Dr. Khan" "Monday" "11:00 AM" healthy
    (with_post (webhook_request "Ali Raza" "Dr. Khan" "Monday" "11:00 AM") initial_world)
    = (result_of (confirm_patient "Ali Raza" "Dr. Khan" "Monday" "11:00 AM"
                    healthy initial_world),
       with_post (webhook_request "Ali Raza" "Dr. Khan" "Monday" "11:00 AM")
         (world_of (confirm_patient "Ali Raza" "Dr. Khan" "Monday" "11:00 AM"
                      healthy initial_world))).
Proof.
  exact (confirm_patient_ignores_the_webhook healthy failing_webhook initial_world
           (webhook_request "Ali Raza" "Dr. Khan" "Monday" "11:00 AM")
           "Ali Raza" "Dr. Khan" "Monday" "11:00 AM" eq_refl).
Defined.


(** X7. The two booking tools commute: notifying the doctor and then
    confirming the patient returns the same two strings and leaves the same
    world as confirming first and notifying second, for any arguments of
    either, in every environment and world. *)
Theorem notify_and_confirm_commute :
  forall (e : env) (w : world) (p1 d1 dt1 t1 p2 d2 dt2 t2 : string),
    let notify := send_doctor_request p1 d1 dt1 t1 in
    let confirm := confirm_patient p2 d2 dt2 t2 in
    result_of (notify e w) = result_of (notify e (world_of (confirm e w))) /\
    result_of (confirm e (world_of (notify e w))) = result_of (confirm e w) /\
    world_of (confirm e (world_of (notify e w)))
      = world_of (notify e (world_of (confirm e w))).
Proof.
  intros e w p1 d1 dt1 t1 p2 d2 dt2 t2 notify confirm.
  unfold notify, confirm.
  rewrite !NotificationClient.send_doctor_request_run.
  change (world_of (Ret (notify_string
                           (outcome_of_reply (net e (webhook_request p1 d1 dt1 t1)))),
                    with_post (webhook_request p1 d1 dt1 t1) w))
    with (with_post (webhook_request p1 d1 dt1 t1) w).
  rewrite confirm_patient_passes_post.
  repeat split.
Qed.

End Tools.

(** ** ChatSession: what a session keeps *)

Module SessionEdges.

Import ChatSession.

(** What one run of the script does to the turns: nothing, or it opens a
    pending turn at the end, or it answers the pending turn at the end. It
    draws the turns it found. *)
Lemma run_once_turns (e : env) (input : option string) (s : session) :
  let s' := run_once e input s in
  screen (fst s') = draw_turns (turns (fst s)) /\
  ((turns (fst s') = turns (fst s) /\ snd s' <> RerunRequested) \/
   (exists text,
      turns (fst s') = (turns (fst s) ++ [(text, thinking)])%list /\
      snd s' = RerunRequested) \/
   (exists earlier user_message reply,
      turns (fst s) = (earlier ++ [(user_message, thinking)])%list /\
      turns (fst s') = (earlier ++ [(user_message, reply)])%list /\
      snd s' = RerunRequested)).
Proof.
  destruct s as [w st]. unfold run_once. simpl fst. simpl snd.
  set (given := match st with RerunRequested => None | _ => input end).
  destruct (truthy given) as [text |] eqn:Ht.
  { rewrite (script_submit e w given text Ht). simpl.
    split; [reflexivity|]. right. left. exists text. split; reflexivity. }
  destruct (last_turn (turns w)) as [[u a] |] eqn:El.
  - destruct (last_turn_inv _ _ El) as (earlier & Heq).
    destruct (String.eqb a thinking) eqn:Ea.
    + apply String.eqb_eq in Ea. subst a.
      rewrite (script_answer e w given earlier u Ht Heq).
      destruct (get_response u e (with_session None [] w)) as [[reply | x] w']; simpl.
      * split; [reflexivity|]. right. right.
        exists earlier, u, reply. repeat split. exact Heq.
      * split; [reflexivity|]. left. split; [reflexivity | discriminate].
    + rewrite (script_idle e w given Ht); [| rewrite El; exact Ea].
      simpl. split; [reflexivity|]. left. split; [reflexivity | discriminate].
  - rewrite (script_idle e w given Ht); [| now rewrite El].
    simpl. split; [reflexivity|]. left. split; [reflexivity | discriminate].
Qed.

(** One run keeps every turn at its place with its user message, and keeps
    an answered turn whole. *)
Lemma run_once_keeps_turns (e : env) (input : option string) (s : session)
    (i : nat) (t : string * string) :
  nth_error (turns (fst s)) i = Some t ->
  exists reply,
    nth_error (turns (fst (run_once e input s))) i = Some (fst t, reply) /\
    (pending t = false -> reply = snd t).
Proof.
  intros Hi.
  destruct (run_once_turns e input s) as [_ [[Heq _] | [(text & Heq & _) | Hans]]].
  - exists (snd t). rewrite Heq, Hi. now destruct t.
  - exists (snd t). rewrite Heq. split; [| reflexivity].
    rewrite nth_error_app1; [rewrite Hi; now destruct t|].
    apply nth_error_Some. congruence.
  - destruct Hans as (earlier & u & reply & Hbefore & Hafter & _).
    rewrite Hafter. rewrite Hbefore in Hi.
    destruct (Nat.lt_ge_cases i (length earlier)) as [Hlt | Hge].
    + exists (snd t). rewrite nth_error_app1 in * by assumption.
      split; [rewrite Hi; now destruct t | reflexivity].
    + rewrite nth_error_app2 in * by assumption.
      destruct (i - length earlier)%nat as [| j].
      * simpl in *. injection Hi as <-. exists reply. split; [reflexivity|].
        unfold pending. simpl. unfold thinking. discriminate.
      * simpl in Hi. now destruct j.
Qed.

(** X8. Whatever happens in a session (replies, failed runs, new
    messages), a turn of the history stays at its index with the user
    message it was opened with, and a turn that was answered is never
    changed again: only the placeholder of a pending turn is ever
    replaced, and no turn is removed. *)
Theorem turns_are_kept_and_answers_are_final :
  forall (runs : list (env * option string)) (s : session) (i : nat)
         (t : string * string),
    nth_error (turns (fst s)) i = Some t ->
    exists reply,
      nth_error (turns (fst (run_session runs s))) i = Some (fst t, reply) /\
      (pending t = false -> reply = snd t).
Proof.
  induction runs as [| [e input] rest IH]; intros s i t Hi.
  - exists (snd t). simpl. rewrite Hi. now destruct t.
  - simpl.
    destruct (run_once_keeps_turns e input s i t Hi) as (r1 & H1 & Hr1).
    destruct (IH _ i _ H1) as (r2 & H2 & Hr2). simpl in *.
    exists r2. split; [exact H2|].
    intros Hp. specialize (Hr1 Hp). subst r1.
    apply Hr2. now destruct t.
Qed.

(** The first turn of the session in which a reply failed keeps its user
    message through the rest of the session. *)
Lemma turns_are_kept_and_answers_are_final_witness :
  exists reply,
    nth_error
      (turns (fst (run_session (skipn 1 session_with_failed_reply)
                     (run_session (firstn 1 session_with_failed_reply) new_session))))
      0
    = Some ("Is Dr. Khan free on Monday?", reply) /\
    (pending ("Is Dr. Khan free on Monday?", thinking) = false -> reply = thinking).
Proof.
  exact (turns_are_kept_and_answers_are_final
           (skipn 1 session_with_failed_reply)
           (run_session (firstn 1 session_with_failed_reply) new_session)
           0 ("Is Dr. Khan free on Monday?", thinking) eq_refl).
Defined.

Lemma length_draw_turns (h : list (string * string)) :
  length (draw_turns h) = (2 * length h)%nat.
Proof.
  unfold draw_turns. induction h as [| t h IH]; [reflexivity|].
  simpl. rewrite IH. lia.
Qed.

(** X9. Every run of the script draws the turns as they were when it
    started (the history is drawn before the input is processed): a
    message just submitted and a reply just computed are on the screen one
    run later. When a run reaches its end, the screen shows the whole
    history, a user and an assistant message for each turn, in order. *)
Theorem screen_shows_history_at_rest :
  forall (e : env) (input : option string) (s : session),
    let s' := run_once e input s in
    screen (fst s') = draw_turns (turns (fst s)) /\
    (snd s' = Ended -> screen (fst s') = draw_turns (turns (fst s'))) /\
    length (screen (fst s')) = (2 * length (turns (fst s)))%nat.
Proof.
  intros e input s s'.
  destruct (run_once_turns e input s) as [Hscreen Hturns]. fold s' in Hscreen, Hturns.
  split; [exact Hscreen|]. split.
  - intros Hend. rewrite Hscreen.
    destruct Hturns as [[-> _] | [(text & _ & Hr) | (a & b & c & _ & _ & Hr)]];
      [reflexivity | congruence | congruence].
  - rewrite Hscreen. apply length_draw_turns.
Qed.

(** *** Sessions in which the model answers *)






(** *** Runs of the whole file *)



(** Without a key the set-up raises, and the run ends before the script
    starts. *)
Lemma streamlit_app_without_key (e : env) (w : world) (getenv : environ)
    (input : option string) :
  getenv "GEMINI_API_KEY" = None ->
  getenv "OPENAI_API_KEY" = None ->
  exists x,
    exn_class x = "OpenAIError" /\
    streamlit_app getenv input e w = (Raise x, with_screen [] w).
Proof.
  intros Hg Ho. eexists. split; [| unfold streamlit_app, setup, AsyncOpenAI,
    bind, modify, ret, raise; rewrite Hg, Ho; reflexivity].
  reflexivity.
Qed.





(** X14. Without a key for the client (neither GEMINI_API_KEY nor
    OPENAI_API_KEY is set), every run of the file raises in the set-up of
    line 21, before the script touches the session: nothing is drawn, the
    history is as it was (not even set, in a new session), the agent is
    not called, and no message submitted is taken. *)
Theorem run_without_key_raises_before_the_session :
  forall (e : env) (getenv : environ) (submitted : option string) (s : session),
    getenv "GEMINI_API_KEY" = None ->
    getenv "OPENAI_API_KEY" = None ->
    let s' := run_file_once e getenv submitted s in
    (exists x, exn_class x = "OpenAIError" /\ snd s' = Crashed x) /\
    history (fst s') = history (fst s) /\
    screen (fst s') = [] /\
    agent_runs (fst s') = agent_runs (fst s) /\
    posts (fst s') = posts (fst s) /\
    appointments_json (fst s') = appointments_json (fst s).
Proof.
  intros e getenv submitted s Hg Ho s'. unfold s', run_file_once.
  set (given := match snd s with RerunRequested => None | _ => submitted end).
  destruct (streamlit_app_without_key e (fst s) getenv given Hg Ho) as (x & Hx & ->).
  simpl. repeat split. now exists x.
Qed.

Lemma run_without_key_raises_before_the_session_witness :
  let s' := run_file_once healthy without_key (Some "Hello") new_session in
  (exists x, exn_class x = "OpenAIError" /\ snd s' = Crashed x) /\
  history (fst s') = history (fst new_session) /\
  screen (fst s') = [] /\
  agent_runs (fst s') = agent_runs (fst new_session) /\
  posts (fst s') = posts (fst new_session) /\
  appointments_json (fst s') = appointments_json (fst new_session).
Proof.
  exact (run_without_key_raises_before_the_session healthy without_key
           (Some "Hello") new_session eq_refl eq_refl).
Defined.

(** *** A reply that is the placeholder *)

Lemma run_session_cons (e : env) (input : option string)
    (rest : list (env * option string)) (s : session) :
  run_session ((e, input) :: rest) s = run_session rest (run_once e input s).
Proof. reflexivity. Qed.

Lemma get_response_final (e : env) (w : world) (user_input reply : string) :
  llm e user_input = Final reply ->
  get_response user_input e w = (Ret reply, with_agent_run user_input w).
Proof.
  intros Hl. unfold get_response, Runner_run, bind, modify, ask, ret. simpl.
  now rewrite Hl.
Qed.

(** X11. The placeholder is told from a reply by its text alone (line
    186). When the model answers a message with that very text, the turn is
    still pending after the answer, the script asks for another run, and
    every rerun calls the agent again on the same message: after any
    number of reruns the session is still due a rerun, the history is as it
    was, and the agent has run once per rerun. The turn never comes to
    rest while the model keeps that answer. *)
Theorem placeholder_reply_is_asked_again :
  forall (n : nat) (e : env) (w : world) (earlier : list (string * string))
         (user_message : string),
    llm e user_message = Final thinking ->
    turns w = (earlier ++ [(user_message, thinking)])%list ->
    let s := run_session (repeat (e, None) n) (w, RerunRequested) in
    snd s = RerunRequested /\
    turns (fst s) = turns w /\
    agent_runs (fst s) = (agent_runs w ++ repeat user_message n)%list.
Proof.
  induction n as [| n IH]; intros e w earlier u Hl Hw s.
  - unfold s. simpl. now rewrite app_nil_r.
  - unfold s.
    change (repeat (e, @None string) (S n))
      with ((e, @None string) :: repeat (e, @None string) n).
    rewrite run_session_cons.
    assert (Hstep : run_once e None (w, RerunRequested)
                    = (with_session (Some (turns w)) (draw_turns (turns w))
                         (with_agent_run u (with_session None [] w)),
                       RerunRequested)).
    { cbv beta iota zeta delta [run_once fst snd].
      rewrite (script_answer e w None earlier u eq_refl Hw).
      rewrite (get_response_final e _ u thinking Hl). now rewrite Hw. }
    rewrite Hstep.
    set (w1 := with_session _ _ _).
    assert (Hw1 : turns w1 = (earlier ++ [(u, thinking)])%list) by exact Hw.
    destruct (IH e w1 earlier u Hl Hw1) as (Hend & Hturns & Hruns).
    split; [exact Hend|]. split; [now rewrite Hturns|].
    rewrite Hruns. unfold w1. simpl. now rewrite <- app_assoc.
Qed.

Lemma placeholder_reply_is_asked_again_witness :
  let w := fst (run_once echoing_placeholder (Some "Hello") new_session) in
  let s := run_session (repeat (echoing_placeholder, None) 3) (w, RerunRequested) in
  snd s = RerunRequested /\
  turns (fst s) = turns w /\
  agent_runs (fst s) = (agent_runs w ++ repeat "Hello" 3)%list.
Proof.
  exact (placeholder_reply_is_asked_again 3 echoing_placeholder
           (fst (run_once echoing_placeholder (Some "Hello") new_session))
           [] "Hello" eq_refl eq_refl).
Defined.

(** *** A whole turn *)

(** X12. A whole turn takes three runs of the script. From a session at
    rest, whatever its history, a submitted message that is not empty, to
    which the agent returns a reply other than the placeholder, leaves the
    session at rest again, its history one turn longer (the message with
    that reply), the whole history on the screen, and the agent run exactly
    once, on that message; the environments of the first and the third run
    do not matter. *)
Theorem submitted_message_is_answered_once :
  forall (e1 e2 e3 : env) (w w2 : world) (text reply : string),
    text <> EmptyString ->
    get_response text e2 (with_session None [] w) = (Ret reply, w2) ->
    reply <> thinking ->
    run_session [(e1, Some text); (e2, None); (e3, None)] (w, Ended)
    = (with_session (Some (turns w ++ [(text, reply)])%list)
                    (draw_turns (turns w ++ [(text, reply)])) w2,
       Ended) /\
    agent_runs w2 = (agent_runs w ++ [text])%list.
Proof.
  intros e1 e2 e3 w w2 text reply Htext Hreply Hne.
  split.
  - unfold run_session. simpl fold_left.
    assert (Ht : truthy (Some text) = Some text) by (destruct text; [contradiction | reflexivity]).
    unfold run_once at 3. cbv beta iota zeta delta [fst snd].
    rewrite (script_submit e1 w (Some text) text Ht).
    unfold run_once at 2. cbv beta iota zeta delta [fst snd].
    rewrite (script_answer e2
               (with_session (Some (turns w ++ [(text, thinking)])%list)
                             (draw_turns (turns w)) w)
               None (turns w) text eq_refl eq_refl).
    change (with_session None [] (with_session _ _ w)) with (with_session None [] w).
    rewrite Hreply.
    unfold run_once. cbv beta iota zeta delta [fst snd].
    rewrite (script_idle e3 _ None eq_refl).
    + reflexivity.
    + unfold turns at 1. simpl. rewrite last_turn_snoc.
      unfold pending. simpl. now apply String.eqb_neq.
  - pose proof (get_response_logs_input e2 (with_session None [] w) text) as Hlog.
    rewrite Hreply in Hlog. exact Hlog.
Qed.

(** The booking of the sample model, from the start of a session. *)
Lemma submitted_message_is_answered_once_witness :
  run_session [(healthy, Some "Ali Raza"); (booking, None); (offline, None)]
    (initial_world, Ended)
  = (with_session
       (Some (turns initial_world
              ++ [("Ali Raza", "✅ Appointment booked successfully.")])%list)
       (draw_turns (turns initial_world
                    ++ [("Ali Raza", "✅ Appointment booked successfully.")]))
       (world_of (get_response "Ali Raza" booking (with_session None [] initial_world))),
     Ended) /\
  agent_runs (world_of (get_response "Ali Raza" booking (with_session None [] initial_world)))
  = (agent_runs initial_world ++ ["Ali Raza"])%list.
Proof.
  apply (submitted_message_is_answered_once healthy booking offline initial_world
           (world_of (get_response "Ali Raza" booking (with_session None [] initial_world)))
           "Ali Raza" "✅ Appointment booked successfully.").
  - discriminate.
  - reflexivity.
  - discriminate.
Defined.

End SessionEdges.
